(** * NewsTracker: a shallow embedding of the scrolling news ticker

    The development follows [news-tracker.js] (version 1.1.0 of the
    [NewsTracker] class): the widget object, the part of the document it
    writes to, and the part of the browser it schedules work with (timeouts,
    animation frames, the clock) are explicit state, every method is a
    function on that state, and the listeners registered by
    [addEventListeners] are gathered in [dispatch]. *)

From Stdlib Require Import QArith Qround Lqa Lia List Bool Ascii String.
From stdpp Require Import base option gmap strings pretty.
Import ListNotations.

Local Open Scope Q_scope.

(** ** JavaScript numbers

    A [Number] is modelled as an exact rational or one of the three
    non-finite values.  The rounding of doubles, their overflow to an
    infinity and the sign of zero are left out: sums, products and
    quotients are exact, so that a result the code rounds onto a bound (a
    position that rounds to the content width itself) compares differently
    here, and a zero divisor is taken as [+0]. *)
Module Num.

Inductive num : Type :=
  | Fin (q : Q)
  | PInf
  | NInf
  | NaN.

Definition Qpos_b (q : Q) : bool := negb (Qle_bool q 0).
Definition Qzero_b (q : Q) : bool := Qeq_bool q 0.

Definition neg (a : num) : num :=
  match a with
  | Fin q => Fin (- q)
  | PInf => NInf
  | NInf => PInf
  | NaN => NaN
  end.

Definition add (a b : num) : num :=
  match a, b with
  | NaN, _ | _, NaN => NaN
  | Fin x, Fin y => Fin (x + y)
  | PInf, NInf | NInf, PInf => NaN
  | PInf, _ | _, PInf => PInf
  | NInf, _ | _, NInf => NInf
  end.

Definition sub (a b : num) : num := add a (neg b).

(** The infinity whose sign is that of [q], [q] being non-zero. *)
Definition inf_of_sign (q : Q) : num := if Qpos_b q then PInf else NInf.

Definition mul (a b : num) : num :=
  match a, b with
  | NaN, _ | _, NaN => NaN
  | Fin x, Fin y => Fin (x * y)
  | Fin x, PInf | PInf, Fin x => if Qzero_b x then NaN else inf_of_sign x
  | Fin x, NInf | NInf, Fin x => if Qzero_b x then NaN else inf_of_sign (- x)
  | PInf, PInf | NInf, NInf => PInf
  | PInf, NInf | NInf, PInf => NInf
  end.

Definition div (a b : num) : num :=
  match a, b with
  | NaN, _ | _, NaN => NaN
  | Fin x, Fin y =>
      if Qzero_b y then (if Qzero_b x then NaN else inf_of_sign x)
      else Fin (x / y)
  | Fin _, (PInf | NInf) => Fin 0
  | PInf, Fin y => if Qle_bool 0 y then PInf else NInf
  | NInf, Fin y => if Qle_bool 0 y then NInf else PInf
  | (PInf | NInf), (PInf | NInf) => NaN
  end.

(** [a >= b]; any comparison with [NaN] is false. *)
Definition ge (a b : num) : bool :=
  match a, b with
  | NaN, _ | _, NaN => false
  | Fin x, Fin y => Qle_bool y x
  | PInf, _ => true
  | _, NInf => true
  | _, _ => false
  end.

(** [Math.max] and [Math.min] of two arguments. *)
Definition max (a b : num) : num :=
  match a, b with
  | NaN, _ | _, NaN => NaN
  | Fin x, Fin y => Fin (if Qle_bool x y then y else x)
  | PInf, _ | _, PInf => PInf
  | NInf, c | c, NInf => c
  end.

Definition min (a b : num) : num :=
  match a, b with
  | NaN, _ | _, NaN => NaN
  | Fin x, Fin y => Fin (if Qle_bool x y then x else y)
  | NInf, _ | _, NInf => NInf
  | PInf, c | c, PInf => c
  end.

(** Truthiness of a number: [0] and [NaN] are falsy. *)
Definition truthy (a : num) : bool :=
  match a with
  | Fin q => negb (Qzero_b q)
  | PInf | NInf => true
  | NaN => false
  end.

Definition of_N (n : N) : num := Fin (inject_Z (Z.of_N n)).

Definition finite (a : num) : bool :=
  match a with Fin _ => true | _ => false end.

End Num.

Import Num.

Arguments neg : simpl never.
Arguments add : simpl never.
Arguments sub : simpl never.
Arguments mul : simpl never.
Arguments div : simpl never.
Arguments ge : simpl never.
Arguments max : simpl never.
Arguments min : simpl never.
Arguments truthy : simpl never.
Arguments finite : simpl never.

(** ** Data model *)

(** A theme, as in [defaultOptions.themes]. *)
Record Theme : Type := mkTheme {
  background : string;
  text : string;
  itemBg : string;
  itemBorder : string
}.

Record Article : Type := mkArticle {
  category : string;
  title : string;
  url : string
}.

(** [this.config]: the default options overridden by the caller's. *)
Record Config : Type := mkConfig {
  newsData : list Article;
  themes : gmap string Theme;
  scrollSpeed : num;
  autoStart : bool;
  idleTimeout : num
}.

(** The caller's options; a field left out is [None]. *)
Record Options : Type := mkOptions {
  opt_newsData : option (list Article);
  opt_themes : option (gmap string Theme);
  opt_scrollSpeed : option num;
  opt_autoStart : option bool;
  opt_idleTimeout : option num
}.

Definition handle : Type := positive.

(** The fields of a [NewsTracker] object.  [lastFrameTime], [startX] and
    [startScrollPosition] are [undefined] until first assigned; in the
    arithmetic that reads them [undefined] behaves as [NaN], which is the
    value they start with here. *)
Record Tracker : Type := mkTracker {
  config : Config;
  currentTheme : string;
  isScrolling : bool;
  scrollPosition : num;
  contentWidth : num;
  animationFrameId : option handle;
  isDragging : bool;
  isHovered : bool;
  idleTimeoutId : option handle;
  lastFrameTime : num;
  startX : num;
  startScrollPosition : num
}.

(** A rendered [.nt-news-item] with the two inline style properties that
    [setTheme] writes; the empty string is an unset property. *)
Record Item : Type := mkItem {
  item_article : Article;
  item_backgroundColor : string;
  item_border : string
}.

(** The part of the document the tracker writes to or reads from.
    [mounted] tells whether the ticker structure is inside the container
    (it is until [destroy] empties the container); [contentTransform] and
    [cloneTransform] are the [translateX] offsets, in pixels, of the two
    elements of [this.contentElements]; [offsetWidth] is what layout
    currently reports for the first [.nt-ticker-content]. *)
Record Dom : Type := mkDom {
  mounted : bool;
  containerBackground : string;
  containerColor : string;
  contentItems : list Item;
  cloneItems : list Item;
  contentTransform : option num;
  cloneTransform : option num;
  offsetWidth : N
}.

(** The part of the browser the tracker schedules work with: the clock in
    milliseconds, the pending timeouts with the time they are due, the
    pending animation-frame requests, and the next handle of each kind.
    [expired] is the history of the timeouts that have fired, with the time
    each fired at; the program never reads it. *)
Record Browser : Type := mkBrowser {
  clock : Q;
  timers : list (handle * Q);
  frames : list handle;
  nextTimer : handle;
  nextFrame : handle;
  expired : list (handle * Q)
}.

Record World : Type := mkWorld {
  tracker : Tracker;
  dom : Dom;
  browser : Browser
}.

(** *** Field updates *)

Definition set_config (v : Config) (t : Tracker) : Tracker :=
  mkTracker v (currentTheme t) (isScrolling t) (scrollPosition t)
    (contentWidth t) (animationFrameId t) (isDragging t) (isHovered t)
    (idleTimeoutId t) (lastFrameTime t) (startX t) (startScrollPosition t).
Definition set_currentTheme (v : string) (t : Tracker) : Tracker :=
  mkTracker (config t) v (isScrolling t) (scrollPosition t)
    (contentWidth t) (animationFrameId t) (isDragging t) (isHovered t)
    (idleTimeoutId t) (lastFrameTime t) (startX t) (startScrollPosition t).
Definition set_isScrolling (v : bool) (t : Tracker) : Tracker :=
  mkTracker (config t) (currentTheme t) v (scrollPosition t)
    (contentWidth t) (animationFrameId t) (isDragging t) (isHovered t)
    (idleTimeoutId t) (lastFrameTime t) (startX t) (startScrollPosition t).
Definition set_scrollPosition (v : num) (t : Tracker) : Tracker :=
  mkTracker (config t) (currentTheme t) (isScrolling t) v
    (contentWidth t) (animationFrameId t) (isDragging t) (isHovered t)
    (idleTimeoutId t) (lastFrameTime t) (startX t) (startScrollPosition t).
Definition set_contentWidth (v : num) (t : Tracker) : Tracker :=
  mkTracker (config t) (currentTheme t) (isScrolling t) (scrollPosition t)
    v (animationFrameId t) (isDragging t) (isHovered t)
    (idleTimeoutId t) (lastFrameTime t) (startX t) (startScrollPosition t).
Definition set_animationFrameId (v : option handle) (t : Tracker) : Tracker :=
  mkTracker (config t) (currentTheme t) (isScrolling t) (scrollPosition t)
    (contentWidth t) v (isDragging t) (isHovered t)
    (idleTimeoutId t) (lastFrameTime t) (startX t) (startScrollPosition t).
Definition set_isDragging (v : bool) (t : Tracker) : Tracker :=
  mkTracker (config t) (currentTheme t) (isScrolling t) (scrollPosition t)
    (contentWidth t) (animationFrameId t) v (isHovered t)
    (idleTimeoutId t) (lastFrameTime t) (startX t) (startScrollPosition t).
Definition set_isHovered (v : bool) (t : Tracker) : Tracker :=
  mkTracker (config t) (currentTheme t) (isScrolling t) (scrollPosition t)
    (contentWidth t) (animationFrameId t) (isDragging t) v
    (idleTimeoutId t) (lastFrameTime t) (startX t) (startScrollPosition t).
Definition set_idleTimeoutId (v : option handle) (t : Tracker) : Tracker :=
  mkTracker (config t) (currentTheme t) (isScrolling t) (scrollPosition t)
    (contentWidth t) (animationFrameId t) (isDragging t) (isHovered t)
    v (lastFrameTime t) (startX t) (startScrollPosition t).
Definition set_lastFrameTime (v : num) (t : Tracker) : Tracker :=
  mkTracker (config t) (currentTheme t) (isScrolling t) (scrollPosition t)
    (contentWidth t) (animationFrameId t) (isDragging t) (isHovered t)
    (idleTimeoutId t) v (startX t) (startScrollPosition t).
Definition set_startX (v : num) (t : Tracker) : Tracker :=
  mkTracker (config t) (currentTheme t) (isScrolling t) (scrollPosition t)
    (contentWidth t) (animationFrameId t) (isDragging t) (isHovered t)
    (idleTimeoutId t) (lastFrameTime t) v (startScrollPosition t).
Definition set_startScrollPosition (v : num) (t : Tracker) : Tracker :=
  mkTracker (config t) (currentTheme t) (isScrolling t) (scrollPosition t)
    (contentWidth t) (animationFrameId t) (isDragging t) (isHovered t)
    (idleTimeoutId t) (lastFrameTime t) (startX t) v.

Definition set_newsData (v : list Article) (c : Config) : Config :=
  mkConfig v (themes c) (scrollSpeed c) (autoStart c) (idleTimeout c).

Definition on_tracker (f : Tracker -> Tracker) (w : World) : World :=
  mkWorld (f (tracker w)) (dom w) (browser w).

(** ** The browser interface

    [setTimeout] takes its delay as a 32-bit signed integer: the number is
    cut to its integer part, reduced modulo 2^32 into the signed range, a
    number that is not finite counting as zero; a negative result is then
    taken as zero.  Handles are positive integers, hence truthy.  No time
    passes while a listener or a callback runs: every [performance.now()]
    within it reads the same clock. *)

Definition toInt32 (q : Q) : Z :=
  let z := Z.quot (Qnum q) (Z.pos (Qden q)) in
  let m := Z.modulo z (2 ^ 32) in
  if Z.leb (2 ^ 31) m then (m - 2 ^ 32)%Z else m.

Definition delay_ms (d : num) : Q :=
  match d with
  | Fin q => inject_Z (Z.max 0 (toInt32 q))
  | _ => 0
  end.

Definition performance_now (w : World) : num := Fin (clock (browser w)).

Definition setTimeout (delay : num) (w : World) : World * handle :=
  let b := browser w in
  let id := nextTimer b in
  (mkWorld (tracker w) (dom w)
     (mkBrowser (clock b) (timers b ++ [(id, clock b + delay_ms delay)])
        (frames b) (Pos.succ id) (nextFrame b) (expired b)),
   id).

Definition drop_timer (id : handle) (l : list (handle * Q)) : list (handle * Q) :=
  List.filter (fun p => negb (Pos.eqb (fst p) id)) l.

(** [clearTimeout(null)], like the clearing of a handle that is not
    pending, does nothing. *)
Definition clearTimeout (oid : option handle) (w : World) : World :=
  match oid with
  | None => w
  | Some id =>
      let b := browser w in
      mkWorld (tracker w) (dom w)
        (mkBrowser (clock b) (drop_timer id (timers b)) (frames b)
           (nextTimer b) (nextFrame b) (expired b))
  end.

Definition requestAnimationFrame (w : World) : World * handle :=
  let b := browser w in
  let id := nextFrame b in
  (mkWorld (tracker w) (dom w)
     (mkBrowser (clock b) (timers b) (frames b ++ [id]) (nextTimer b)
        (Pos.succ id) (expired b)),
   id).

Definition cancelAnimationFrame (id : handle) (w : World) : World :=
  let b := browser w in
  mkWorld (tracker w) (dom w)
    (mkBrowser (clock b) (timers b)
       (List.filter (fun h => negb (Pos.eqb h id)) (frames b))
       (nextTimer b) (nextFrame b) (expired b)).

(** ** The methods of [NewsTracker] *)

(** [createNewsItem]: the element is filled through [innerHTML] from the
    strings of the article, unescaped.  An [Item] stands for the one
    [.nt-news-item] this gives when none of the strings opens a tag (see
    [plain]); what markup inside an article would add to the page is not
    modelled. *)
Definition createNewsItem (a : Article) : Item := mkItem a "" "".



(** [generateNewsItems]: both tracks are rebuilt from [config.newsData] and
    the width of the first one is measured. *)
Definition generateNewsItems (w : World) : World :=
  let d := dom w in
  let items := map createNewsItem (newsData (config (tracker w))) in
  mkWorld (set_contentWidth (of_N (offsetWidth d)) (tracker w))
    (mkDom (mounted d) (containerBackground d) (containerColor d)
       items items (contentTransform d) (cloneTransform d) (offsetWidth d))
    (browser w).

Definition style_item (th : Theme) (i : Item) : Item :=
  mkItem (item_article i) (itemBg th) ("1px solid " ++ itemBorder th).

(** The names every plain object inherits from [Object.prototype]; what
    they give is a function, or for [__proto__] the prototype itself:
    truthy, and without any of the properties of a theme. *)
Definition objectPrototypeNames : list string :=
  ["constructor"; "__defineGetter__"; "__defineSetter__"; "hasOwnProperty";
   "__lookupGetter__"; "__lookupSetter__"; "isPrototypeOf";
   "propertyIsEnumerable"; "toString"; "valueOf"; "__proto__";
   "toLocaleString"]%string.

Definition inheritedName (name : string) : bool :=
  existsb (String.eqb name) objectPrototypeNames.

(** [setTheme]: [config.themes] is a plain object whose own entries are the
    themes map, so [config.themes[themeName]] is the theme of that name, or
    else what the name inherits, or else [undefined], which alone is falsy.
    On an inherited name the colours read are [undefined]; the page drops
    the four style assignments made from them, and [currentTheme] alone
    changes. *)
Definition setTheme (themeName : string) (w : World) : World :=
  match themes (config (tracker w)) !! themeName with
  | None =>
      if inheritedName themeName
      then on_tracker (set_currentTheme themeName) w
      else w
  | Some theme =>
      let d := dom w in
      mkWorld (set_currentTheme themeName (tracker w))
        (mkDom (mounted d) (background theme) (text theme)
           (map (style_item theme) (contentItems d))
           (map (style_item theme) (cloneItems d))
           (contentTransform d) (cloneTransform d) (offsetWidth d))
        (browser w)
  end.

(** [applyScrollPosition]: the transform is assigned as the text
    [translateX(<n>px)]; when [<n>] is not a finite number the text is no
    transform and the page drops the assignment, leaving both tracks as
    they were. *)
Definition applyScrollPosition (w : World) : World :=
  let translateX := neg (scrollPosition (tracker w)) in
  let d := dom w in
  if finite translateX
  then
    mkWorld (tracker w)
      (mkDom (mounted d) (containerBackground d) (containerColor d)
         (contentItems d) (cloneItems d) (Some translateX) (Some translateX)
         (offsetWidth d))
      (browser w)
  else w.

Definition animationLoop (w : World) : World :=
  if negb (isScrolling (tracker w)) then w
  else
    let now := performance_now w in
    let deltaTime := sub now (lastFrameTime (tracker w)) in
    let w := on_tracker (set_lastFrameTime now) w in
    let pixelsPerSecond :=
      div (div (contentWidth (tracker w)) (Fin 2))
          (scrollSpeed (config (tracker w))) in
    let w :=
      on_tracker
        (set_scrollPosition
           (add (scrollPosition (tracker w))
                (mul (div deltaTime (Fin 1000)) pixelsPerSecond))) w in
    let w :=
      if ge (scrollPosition (tracker w)) (contentWidth (tracker w))
      then on_tracker
             (set_scrollPosition
                (sub (scrollPosition (tracker w)) (contentWidth (tracker w))))
             w
      else w in
    let w := applyScrollPosition w in
    let '(w, id) := requestAnimationFrame w in
    on_tracker (set_animationFrameId (Some id)) w.

Definition start (w : World) : World :=
  if isScrolling (tracker w) || negb (truthy (contentWidth (tracker w)))
  then w
  else
    let w := on_tracker (set_isScrolling true) w in
    let w := on_tracker (set_lastFrameTime (performance_now w)) w in
    animationLoop w.

Definition pause (w : World) : World :=
  let w := on_tracker (set_isScrolling false) w in
  match animationFrameId (tracker w) with
  | Some id =>
      on_tracker (set_animationFrameId None) (cancelAnimationFrame id w)
  | None => w
  end.

(** [updateNews]; once the container has been emptied,
    [generateNewsItems] finds no content element and throws after the
    assignment to [config.newsData]. *)
Definition updateNews (newData : list Article) (w : World) : World :=
  let w := on_tracker (fun t => set_config (set_newsData newData (config t)) t) w in
  if mounted (dom w) then generateNewsItems w else w.

(** The callback given to [setTimeout] by [recordInteraction]. *)
Definition idleExpired (w : World) : World :=
  if negb (isDragging (tracker w)) && negb (isHovered (tracker w))
  then start w
  else w.

Definition recordInteraction (w : World) : World :=
  let w := clearTimeout (idleTimeoutId (tracker w)) w in
  let '(w, id) :=
    setTimeout (mul (idleTimeout (config (tracker w))) (Fin 1000)) w in
  on_tracker (set_idleTimeoutId (Some id)) w.

(** The four drag handlers take the horizontal client position of the
    pointer ([e.clientX], or [e.touches[0].clientX]). *)
Definition handleTouchStart (clientX : Q) (w : World) : World :=
  let w := on_tracker (set_isDragging true) w in
  let w := on_tracker (set_startX (Fin clientX)) w in
  let w := on_tracker (fun t => set_startScrollPosition (scrollPosition t) t) w in
  recordInteraction (pause w).

Definition handleTouchMove (clientX : Q) (w : World) : World :=
  if negb (isDragging (tracker w)) then w
  else
    let currentX := Fin clientX in
    let deltaX := sub currentX (startX (tracker w)) in
    let w :=
      on_tracker
        (fun t =>
           set_scrollPosition
             (max (Fin 0)
                (min (sub (startScrollPosition t) deltaX) (contentWidth t)))
             t) w in
    recordInteraction (applyScrollPosition w).

Definition handleTouchEnd (w : World) : World :=
  recordInteraction (on_tracker (set_isDragging false) w).

Definition handleMouseDown (clientX : Q) (w : World) : World :=
  let w := on_tracker (set_isDragging true) w in
  let w := on_tracker (set_startX (Fin clientX)) w in
  let w := on_tracker (fun t => set_startScrollPosition (scrollPosition t) t) w in
  recordInteraction (pause w).

Definition handleMouseMove (clientX : Q) (w : World) : World :=
  if negb (isDragging (tracker w)) then w
  else
    let currentX := Fin clientX in
    let deltaX := sub currentX (startX (tracker w)) in
    let w :=
      on_tracker
        (fun t =>
           set_scrollPosition
             (max (Fin 0)
                (min (sub (startScrollPosition t) deltaX) (contentWidth t)))
             t) w in
    recordInteraction (applyScrollPosition w).

Definition handleMouseUp (w : World) : World :=
  recordInteraction (on_tracker (set_isDragging false) w).

(** [destroy]: [this.handleResize] is never defined, so the call to
    [removeEventListener] removes nothing; the container is emptied and its
    inline style cleared. *)
Definition destroy (w : World) : World :=
  let w := pause w in
  let d := dom w in
  mkWorld (tracker w)
    (mkDom false "" "" [] [] (contentTransform d) (cloneTransform d)
       (offsetWidth d))
    (browser w).

(** ** Events and the event loop *)

(** What the page and the host can make happen: the events the tracker
    listens to, an animation frame, and the calls of the public methods.
    [Resize] and [UpdateNews] carry the width that layout reports for the
    content track afterwards. *)
Inductive Event : Type :=
  | MouseEnter
  | MouseLeave
  | MouseDown (clientX : Q)
  | MouseMove (clientX : Q)
  | MouseUp
  | TouchStart (clientX : Q)
  | TouchMove (clientX : Q)
  | TouchEnd
  | Resize (width : N)
  | ThemeSelect (value : string)
  | AnimationFrame
  | CallStart
  | CallPause
  | CallSetTheme (themeName : string)
  | CallUpdateNews (newData : list Article) (width : N)
  | CallDestroy.

Definition set_layout (width : N) (w : World) : World :=
  let d := dom w in
  mkWorld (tracker w)
    (mkDom (mounted d) (containerBackground d) (containerColor d)
       (contentItems d) (cloneItems d) (contentTransform d) (cloneTransform d)
       width)
    (browser w).

(** The [resize] listener; once the container has been emptied the query
    for the content element gives [null] and the listener throws before
    the assignment. *)
Definition onResize (w : World) : World :=
  if mounted (dom w)
  then on_tracker (set_contentWidth (of_N (offsetWidth (dom w)))) w
  else w.

(** The browser runs the callbacks requested since the last frame. *)
Definition runFrame (w : World) : World :=
  let b := browser w in
  let w' :=
    mkWorld (tracker w) (dom w)
      (mkBrowser (clock b) (timers b) [] (nextTimer b) (nextFrame b)
         (expired b)) in
  fold_left (fun acc _ => animationLoop acc) (frames b) w'.

(** The listeners of each event, in the order [addEventListeners]
    registers them.  The theme selector lives inside the container and
    is gone after [destroy]. *)
Definition dispatch (e : Event) (w : World) : World :=
  match e with
  | MouseEnter => pause (on_tracker (set_isHovered true) w)
  | MouseLeave =>
      let w := on_tracker (set_isHovered false) w in
      let w := if negb (isDragging (tracker w)) then start w else w in
      handleMouseUp w
  | MouseDown x => handleMouseDown x w
  | MouseMove x => recordInteraction (handleMouseMove x w)
  | MouseUp => handleMouseUp w
  | TouchStart x => handleTouchStart x w
  | TouchMove x => recordInteraction (handleTouchMove x w)
  | TouchEnd => handleTouchEnd w
  | Resize width => onResize (set_layout width w)
  | ThemeSelect v => if mounted (dom w) then setTheme v w else w
  | AnimationFrame => runFrame w
  | CallStart => start w
  | CallPause => pause w
  | CallSetTheme n => setTheme n w
  | CallUpdateNews data width => updateNews data (set_layout width w)
  | CallDestroy => destroy w
  end.

(** Whether a listener or call ends by throwing. *)
Definition throws (e : Event) (w : World) : bool :=
  match e with
  | Resize _ | CallUpdateNews _ _ => negb (mounted (dom w))
  | _ => false
  end.

(** *** Timeouts *)

Fixpoint insert_due (p : handle * Q) (l : list (handle * Q)) : list (handle * Q) :=
  match l with
  | [] => [p]
  | q :: l' => if Qle_bool (snd p) (snd q) then p :: l else q :: insert_due p l'
  end.

Definition sort_due (l : list (handle * Q)) : list (handle * Q) :=
  fold_right insert_due [] l.

Definition pending (id : handle) (w : World) : bool :=
  existsb (fun p => Pos.eqb (fst p) id) (timers (browser w)).

Definition later (a b : Q) : Q := if Qle_bool a b then b else a.

(** A timeout fires at the time it is due, unless it has been cleared
    meanwhile: it leaves the pending list and its callback runs. *)
Definition fire (p : handle * Q) (w : World) : World :=
  if pending (fst p) w then
    let b := browser w in
    idleExpired
      (mkWorld (tracker w) (dom w)
         (mkBrowser (later (clock b) (snd p)) (drop_timer (fst p) (timers b))
            (frames b) (nextTimer b) (nextFrame b) (expired b ++ [p])))
  else w.

(** The clock reaches [t]; it never runs backwards. *)
Definition tick (t : Q) (w : World) : World :=
  let b := browser w in
  mkWorld (tracker w) (dom w)
    (mkBrowser (later (clock b) t) (timers b) (frames b) (nextTimer b)
       (nextFrame b) (expired b)).

(** Time passes until [t]: the timeouts due by then fire in the order they
    are due, those due at the same time in the order they were set, and
    the clock reaches [t].  The only callback, [idleExpired], sets no
    timeout, so the timeouts to fire are those pending at the outset. *)
Definition advance (t : Q) (w : World) : World :=
  let due := List.filter (fun p => Qle_bool (snd p) t) (timers (browser w)) in
  tick t (fold_left (fun acc p => fire p acc) (sort_due due) w).

Definition step (te : Q * Event) (w : World) : World :=
  dispatch (snd te) (advance (fst te) w).

Definition run (trace : list (Q * Event)) (w : World) : World :=
  fold_left (fun acc te => step te acc) trace w.

(** ** Construction *)

Definition defaultThemes : gmap string Theme :=
  <["default" := mkTheme "#f0f0f0" "#333" "#fff" "#ddd"]>
  (<["dark" := mkTheme "#1a1a1a" "#fff" "#333" "#444"]>
  (<["blue" := mkTheme "#e3f2fd" "#0d47a1" "#bbdefb" "#90caf9"]>
  (<["green" := mkTheme "#e8f5e9" "#2e7d32" "#c8e6c9" "#a5d6a7"]>
  (<["modern" := mkTheme "#212121" "#00ff9d" "#424242" "#00ff9d"]> ∅)))).

Definition defaultOptions : Config :=
  mkConfig [] defaultThemes (Fin 100) true (Fin 5).

Definition noOptions : Options := mkOptions None None None None None.

(** [{ ...NewsTracker.defaultOptions, ...options }] *)
Definition merge (o : Options) : Config :=
  mkConfig
    (default (newsData defaultOptions) (opt_newsData o))
    (default (themes defaultOptions) (opt_themes o))
    (default (scrollSpeed defaultOptions) (opt_scrollSpeed o))
    (default (autoStart defaultOptions) (opt_autoStart o))
    (default (idleTimeout defaultOptions) (opt_idleTimeout o)).

Definition initialize (w : World) : World :=
  let d := dom w in
  (* createTickerStructure *)
  let w :=
    mkWorld (tracker w)
      (mkDom true (containerBackground d) (containerColor d) [] []
         (contentTransform d) (cloneTransform d) (offsetWidth d))
      (browser w) in
  setTheme "default" (generateNewsItems w).

(** [new NewsTracker(options)] on a page at time [now], where layout gives
    the content track the width [width].  When the container is not found
    the constructor logs an error and returns an object that listens to
    nothing: [None]. *)
Definition constructor (options : Options) (containerFound : bool)
    (width : N) (now : Q) : option World :=
  let t :=
    mkTracker (merge options) "default" false (Fin 0) (Fin 0) None false false
      None NaN NaN NaN in
  if negb containerFound then None
  else
    let w :=
      mkWorld t (mkDom false "" "" [] [] None None width)
        (mkBrowser now [] [] 1%positive 1%positive []) in
    let w := initialize w in
    Some (if autoStart (config (tracker w)) then start w else w).

(** ** Reference worlds and range predicates *)

(** The state after [new NewsTracker()] with the default options on a page
    whose content track is 1000 pixels wide, at time 0. *)
Definition blankWorld : World :=
  mkWorld
    (mkTracker defaultOptions "default" false (Fin 0) (Fin 0) None false false
       None NaN NaN NaN)
    (mkDom false "" "" [] [] None None 0)
    (mkBrowser 0 [] [] 1%positive 1%positive []).

Definition built (options : Options) (width : N) (now : Q) : World :=
  default blankWorld (constructor options true width now).

Definition demoWorld : World := built noOptions 1000 0.

(** [lo <= a < hi] and [lo <= a <= hi] for a number; a non-finite number is
    in no interval. *)
Definition within (a : num) (lo hi : Q) : Prop :=
  match a with
  | Fin q => lo <= q /\ q < hi
  | _ => False
  end.

Definition within_closed (a : num) (lo hi : Q) : Prop :=
  match a with
  | Fin q => lo <= q /\ q <= hi
  | _ => False
  end.

(** [clamp] as the specification words it. *)
Definition clamp (v lo hi : Q) : Q :=
  if Qle_bool v lo then lo else if Qle_bool hi v then hi else v.

(** The normalization step of a frame, on finite numbers. *)
Definition wrap (width v : Q) : Q :=
  if Qle_bool width v then v - width else v.

(** The timer side of a world: what [recordInteraction] and the firing of
    timeouts read and write. *)
Definition tview (w : World) :
    list (handle * Q) * option handle * Q * list (handle * Q) * handle * num :=
  (timers (browser w), idleTimeoutId (tracker w), clock (browser w),
   expired (browser w), nextTimer (browser w),
   idleTimeout (config (tracker w))).

(** Every pending timeout is the one [idleTimeoutId] names, and there is at
    most one. *)
Definition tracked (w : World) : Prop :=
  match timers (browser w) with
  | [] => True
  | [p] => idleTimeoutId (tracker w) = Some (fst p)
  | _ => False
  end.


Definition is_move (e : Event) : bool :=
  match e with
  | MouseMove _ | TouchMove _ => true
  | _ => false
  end.


Fixpoint ordered (prev : Q) (times : list Q) : Prop :=
  match times with
  | [] => True
  | t :: rest => prev <= t /\ ordered t rest
  end.


(** Animation frames at the given times. *)
Definition frames_at (times : list Q) : list (Q * Event) :=
  map (fun t => (t, AnimationFrame)) times.

(** The driver is running on finite data, with one frame requested and no
    timeout pending. *)
Record driving (w : World) (width period position : Q) : Prop := mkDriving {
  drv_scrolling : isScrolling (tracker w) = true;
  drv_width : contentWidth (tracker w) = Fin width;
  drv_period : scrollSpeed (config (tracker w)) = Fin period;
  drv_last : lastFrameTime (tracker w) = Fin (clock (browser w));
  drv_frames : exists id, frames (browser w) = [id];
  drv_timers : timers (browser w) = [];
  drv_position : exists q, scrollPosition (tracker w) = Fin q /\ q == position;
  drv_transforms :
    exists q, contentTransform (dom w) = Some (Fin q) /\
              cloneTransform (dom w) = Some (Fin q) /\ q == - position
}.




(** A drag is under way, begun with the pointer at [a] and the position
    at [b], on a content track of width [L]. *)
Definition dragging_from (w : World) (a b L : Q) : Prop :=
  isDragging (tracker w) = true /\
  startX (tracker w) = Fin a /\
  startScrollPosition (tracker w) = Fin b /\
  contentWidth (tracker w) = Fin L.

Definition eagerOptions : Options := mkOptions None None None None (Some (Fin 0)).

(** The translation of a track, when it has one, lies within [lo, hi]. *)
Definition translated (o : option num) (lo hi : Q) : Prop :=
  match o with
  | Some a => within_closed a lo hi
  | None => False
  end.

(** Frames that come no more than [gap] after one another. *)
Fixpoint paced (gap prev : Q) (times : list Q) : Prop :=
  match times with
  | [] => True
  | t :: rest => prev <= t /\ t - prev <= gap /\ paced gap t rest
  end.

(** The frame side of a world: what [start], [pause] and the frame
    callback read and write of the scheduling of frames. *)
Definition fview (w : World) : list handle * bool * option handle :=
  (frames (browser w), isScrolling (tracker w), animationFrameId (tracker w)).

(** A running driver has exactly one frame requested, the one
    [animationFrameId] names; a stopped one has none. *)
Definition framed (w : World) : Prop :=
  if isScrolling (tracker w)
  then exists id, frames (browser w) = [id] /\ animationFrameId (tracker w) = Some id
  else frames (browser w) = [].


(** The events that begin a drag, and those that end one. *)
Definition is_press (e : Event) : bool :=
  match e with
  | MouseDown _ | TouchStart _ => true
  | _ => false
  end.


(** The tracker was built by the constructor and has since seen the
    events of [trace]. *)
Definition reached (w : World) : Prop :=
  exists o width now w0 trace,
    constructor o true width now = Some w0 /\ w = run trace w0.




(** The numbers a frame or a move reads are finite: the period, which is
    not zero, the position, the width, which is not negative, the time of
    the last frame while the driver runs, and the origin of the drag while
    one is under way. *)
Definition finite_tracker (t : Tracker) : Prop :=
  (exists P, scrollSpeed (config t) = Fin P /\ ~ P == 0) /\
  (exists q, scrollPosition t = Fin q) /\
  (exists W, contentWidth t = Fin W /\ 0 <= W) /\
  (isScrolling t = true -> exists t0, lastFrameTime t = Fin t0) /\
  (isDragging t = true ->
   exists a b, startX t = Fin a /\ startScrollPosition t = Fin b).

Definition finite_state (w : World) : Prop := finite_tracker (tracker w).

(** Options that give a scroll period and leave the rest to the defaults. *)
Definition periodOptions (period : num) : Options :=
  mkOptions None None (Some period) None None.

(** ** The earlier variant

    The second class of the file (version 1.0.0) scrolls with a CSS
    animation instead of a frame loop.  Its [resize] listener, which
    restarts that animation through a timeout, is left out. *)
Module Legacy.

Record Config : Type := mkConfig {
  newsData : list Article;
  themes : gmap string Theme;
  scrollSpeed : num;
  autoStart : bool
}.

Record Options : Type := mkOptions {
  opt_newsData : option (list Article);
  opt_themes : option (gmap string Theme);
  opt_scrollSpeed : option num;
  opt_autoStart : option bool
}.

(** A rendered item: the article, the time stamp shown with it, and the two
    inline style properties [setTheme] writes. *)
Record Item : Type := mkItem {
  item_article : Article;
  item_stamp : string;
  item_backgroundColor : string;
  item_border : string
}.

(** An [.nt-ticker-content] element: its items and its inline
    [animation-play-state], empty when unset. *)
Record Track : Type := mkTrack {
  items : list Item;
  playState : string
}.

(** The tracker and the part of the page it writes to: [content] is the
    first [.nt-ticker-content] of the wrapper, [clones] the ones appended
    after it, in order; [warnings] is what [console.warn] has been given. *)
Record World : Type := mkWorld {
  config : Config;
  currentTheme : string;
  isRunning : bool;
  mounted : bool;
  containerBackground : string;
  containerColor : string;
  content : Track;
  clones : list Track;
  warnings : list string
}.

(** [String.prototype.padStart] with a fill string of one character. *)
Fixpoint fill (n : nat) (c : ascii) (s : string) : string :=
  match n with
  | O => s
  | S k => String c (fill k c s)
  end.

Definition padStart (targetLength : nat) (c : ascii) (s : string) : string :=
  fill (targetLength - String.length s) c s.

(** [getTimeStamp] for a clock that reads [hours] and [minutes]. *)
Definition getTimeStamp (hours minutes : N) : string :=
  (pretty hours ++ ":" ++ padStart 2 "0"%char (pretty minutes))%string.

Definition createNewsItem (stamp : string) (a : Article) : Item :=
  mkItem a stamp "" "".

(** [generateNewsItems]: the content is rebuilt and a deep copy of it is
    appended to the wrapper, after the copies already there; one reading
    of the clock stamps all the items of a call.  Without the structure in
    the page there is no content element and it throws. *)
Definition generateNewsItems (hours minutes : N) (w : World) : World :=
  if negb (mounted w) then w
  else
    let built :=
      mkTrack (map (createNewsItem (getTimeStamp hours minutes)) (newsData (config w)))
        (playState (content w)) in
    mkWorld (config w) (currentTheme w) (isRunning w) (mounted w)
      (containerBackground w) (containerColor w) built (clones w ++ [built])
      (warnings w).

Definition style_item (th : Theme) (i : Item) : Item :=
  mkItem (item_article i) (item_stamp i) (itemBg th) ("1px solid " ++ itemBorder th).

Definition style_track (th : Theme) (t : Track) : Track :=
  mkTrack (map (style_item th) (items t)) (playState t).

(** [setTheme], with the same lookup as in the later version: an inherited
    name passes the guard without a warning and only [currentTheme]
    changes. *)
Definition setTheme (themeName : string) (w : World) : World :=
  match themes (config w) !! themeName with
  | None =>
      if inheritedName themeName
      then
        mkWorld (config w) themeName (isRunning w) (mounted w)
          (containerBackground w) (containerColor w) (content w) (clones w)
          (warnings w)
      else
        mkWorld (config w) (currentTheme w) (isRunning w) (mounted w)
          (containerBackground w) (containerColor w) (content w) (clones w)
          (warnings w ++ [("NewsTracker: Theme " ++ String "034"%char themeName
                            ++ String "034"%char " not found")%string])
  | Some theme =>
      mkWorld (config w) themeName (isRunning w) (mounted w)
        (background theme) (text theme) (style_track theme (content w))
        (map (style_track theme) (clones w)) (warnings w)
  end.

(** [start] and [pause] write the play state of the first track only;
    without the structure in the page they throw after setting the flag. *)
Definition set_running (running : bool) (state : string) (w : World) : World :=
  mkWorld (config w) (currentTheme w) running (mounted w)
    (containerBackground w) (containerColor w)
    (if mounted w then mkTrack (items (content w)) state else content w)
    (clones w) (warnings w).

Definition start (w : World) : World := set_running true "running" w.
Definition pause (w : World) : World := set_running false "paused" w.

Definition updateNews (newData : list Article) (hours minutes : N) (w : World) : World :=
  generateNewsItems hours minutes
    (mkWorld (mkConfig newData (themes (config w)) (scrollSpeed (config w))
                (autoStart (config w)))
       (currentTheme w) (isRunning w) (mounted w) (containerBackground w)
       (containerColor w) (content w) (clones w) (warnings w)).

Definition destroy (w : World) : World :=
  mkWorld (config w) (currentTheme w) (isRunning w) false "" ""
    (mkTrack [] "") [] (warnings w).

Definition defaultOptions : Config := mkConfig [] defaultThemes (Fin 40) true.

Definition merge (o : Options) : Config :=
  mkConfig
    (default (newsData defaultOptions) (opt_newsData o))
    (default (themes defaultOptions) (opt_themes o))
    (default (scrollSpeed defaultOptions) (opt_scrollSpeed o))
    (default (autoStart defaultOptions) (opt_autoStart o)).

(** [new NewsTracker(options)] at a time of day; [None] when the container
    is not found. *)
Definition constructor (options : Options) (containerFound : bool)
    (hours minutes : N) : option World :=
  if negb containerFound then None
  else
    let w :=
      mkWorld (merge options) "default" false true "" "" (mkTrack [] "") [] [] in
    let w := setTheme "default" (generateNewsItems hours minutes w) in
    Some (if autoStart (config w) then start w else w).

(** Successive calls of [updateNews], each with its articles and the time
    of day it is made at. *)
Definition updates (calls : list (list Article * N * N)) (w : World) : World :=
  fold_left (fun acc c => updateNews (fst (fst c)) (snd (fst c)) (snd c) acc) calls w.

(** The hours and the minutes a clock can read. *)
Definition hoursOfDay : list N := map N.of_nat (seq 0 24).
Definition minutesOfHour : list N := map N.of_nat (seq 0 60).

(** Every time of the day with its stamp. *)
Definition stampTable : list (N * N * string) :=
  flat_map (fun h => map (fun m => (h, m, getTimeStamp h m)) minutesOfHour)
    hoursOfDay.

(** A stamp has two characters after an unpadded hour and a colon, and
    belongs to no other time of the table. *)
Definition stamp_ok (table : list (N * N * string)) (e : N * N * string) : bool :=
  let h := fst (fst e) in
  let m := snd (fst e) in
  Nat.eqb (String.length (padStart 2 "0"%char (pretty m))) 2 &&
  Nat.eqb (String.length (snd e)) (if (h <? 10)%N then 4 else 5) &&
  forallb
    (fun e' =>
       implb (String.eqb (snd e) (snd e'))
             (N.eqb h (fst (fst e')) && N.eqb m (snd (fst e'))))
    table.

Definition stamps_ok : bool :=
  let table := stampTable in forallb (stamp_ok table) table.

End Legacy.

(** ** Arithmetic helpers *)

Ltac split_ifs :=
  repeat match goal with
         | |- context [if ?c then _ else _] => destruct c; cbn
         end.

Lemma Qle_bool_true (x y : Q) : Qle_bool x y = true -> x <= y.
Proof. apply Qle_bool_iff. Qed.

Lemma Qle_bool_false (x y : Q) : Qle_bool x y = false -> y < x.
Proof.
  intros H. apply Qnot_le_lt. intros Hle.
  apply Qle_bool_iff in Hle. congruence.
Qed.

Lemma Qle_bool_intro (x y : Q) : x <= y -> Qle_bool x y = true.
Proof. apply Qle_bool_iff. Qed.

Lemma Qle_bool_elim (x y : Q) : y < x -> Qle_bool x y = false.
Proof.
  intros H. destruct (Qle_bool x y) eqn:E; [|reflexivity].
  apply Qle_bool_true in E. lra.
Qed.

Lemma Qeq_bool_false (x y : Q) : ~ x == y -> Qeq_bool x y = false.
Proof.
  intros H. destruct (Qeq_bool x y) eqn:E; [|reflexivity].
  apply Qeq_bool_iff in E. contradiction.
Qed.

Lemma Qdiv_le_mono (a b c : Q) : 0 < c -> a <= b -> a / c <= b / c.
Proof.
  intros Hc H. unfold Qdiv. apply Qmult_le_compat_r; [assumption|].
  apply Qinv_le_0_compat. lra.
Qed.

Lemma later_le (a b : Q) : a <= b -> later a b = b.
Proof. intros H. unfold later. now rewrite Qle_bool_intro. Qed.

Lemma clamp_range (v lo hi : Q) : lo <= hi -> lo <= clamp v lo hi /\ clamp v lo hi <= hi.
Proof.
  intros H. unfold clamp.
  destruct (Qle_bool v lo) eqn:E1; [lra|].
  apply Qle_bool_false in E1.
  destruct (Qle_bool hi v) eqn:E2; [lra|].
  apply Qle_bool_false in E2. lra.
Qed.

(** [Math.max(0, Math.min(v, hi))] on finite numbers is [clamp v 0 hi]
    whenever the interval is not empty. *)
Lemma max_min_clamp (v hi : Q) :
  0 <= hi ->
  exists q, max (Fin 0) (min (Fin v) (Fin hi)) = Fin q /\ q == clamp v 0 hi.
Proof.
  intros H. unfold max, min, clamp. eexists. split; [reflexivity|].
  destruct (Qle_bool v hi) eqn:E1.
  - apply Qle_bool_true in E1.
    destruct (Qle_bool 0 v) eqn:E2.
    + apply Qle_bool_true in E2.
      destruct (Qle_bool v 0) eqn:E3.
      * apply Qle_bool_true in E3. lra.
      * destruct (Qle_bool hi v) eqn:E4; [|reflexivity].
        apply Qle_bool_true in E4. lra.
    + apply Qle_bool_false in E2.
      rewrite Qle_bool_intro by lra. reflexivity.
  - apply Qle_bool_false in E1.
    rewrite (Qle_bool_intro 0 hi) by lra.
    rewrite (Qle_bool_elim v 0) by lra.
    rewrite (Qle_bool_intro hi v) by lra. reflexivity.
Qed.

(** ** Frame lemmas: what each method leaves alone *)

(** [applyScrollPosition] writes the two transforms and nothing else. *)
Lemma applyScrollPosition_rest (w : World) :
  tracker (applyScrollPosition w) = tracker w /\
  browser (applyScrollPosition w) = browser w /\
  mounted (dom (applyScrollPosition w)) = mounted (dom w) /\
  containerBackground (dom (applyScrollPosition w)) = containerBackground (dom w) /\
  containerColor (dom (applyScrollPosition w)) = containerColor (dom w) /\
  contentItems (dom (applyScrollPosition w)) = contentItems (dom w) /\
  cloneItems (dom (applyScrollPosition w)) = cloneItems (dom w) /\
  offsetWidth (dom (applyScrollPosition w)) = offsetWidth (dom w).
Proof.
  unfold applyScrollPosition.
  destruct (finite (neg (scrollPosition (tracker w)))); cbn; auto 10.
Qed.


(** On a finite position both tracks take its negation. *)
Lemma applyScrollPosition_finite (w : World) (q : Q) :
  scrollPosition (tracker w) = Fin q ->
  contentTransform (dom (applyScrollPosition w)) = Some (Fin (- q)) /\
  cloneTransform (dom (applyScrollPosition w)) = Some (Fin (- q)).
Proof.
  intros H. unfold applyScrollPosition. rewrite H.
  change (neg (Fin q)) with (Fin (- q)). change (finite (Fin (- q))) with true.
  cbn. auto.
Qed.

Lemma animationLoop_tview (w : World) : tview (animationLoop w) = tview w.
Proof.
  unfold animationLoop, applyScrollPosition.
  destruct (isScrolling (tracker w)); cbn; [|reflexivity].
  split_ifs;
    reflexivity.
Qed.

Lemma start_tview (w : World) : tview (start w) = tview w.
Proof.
  unfold start.
  destruct (isScrolling (tracker w) || negb (truthy (contentWidth (tracker w))));
    [reflexivity|].
  now rewrite animationLoop_tview.
Qed.

Lemma pause_tview (w : World) : tview (pause w) = tview w.
Proof.
  unfold pause; cbn. destruct (animationFrameId (tracker w)); reflexivity.
Qed.

Lemma idleExpired_tview (w : World) : tview (idleExpired w) = tview w.
Proof.
  unfold idleExpired.
  destruct (negb (isDragging (tracker w)) && negb (isHovered (tracker w)));
    [apply start_tview | reflexivity].
Qed.

Lemma tview_inv (w : World) a b c d e f :
  tview w = (a, b, c, d, e, f) ->
  timers (browser w) = a /\ idleTimeoutId (tracker w) = b /\
  clock (browser w) = c /\ expired (browser w) = d /\
  nextTimer (browser w) = e /\ idleTimeout (config (tracker w)) = f.
Proof. unfold tview. intros H. injection H. auto 10. Qed.



(** After [recordInteraction] exactly one timeout is pending, due the idle
    delay after the present time. *)
Lemma recordInteraction_armed (w : World) :
  tracked w ->
  tview (recordInteraction w) =
    ([(nextTimer (browser w),
       clock (browser w) + delay_ms (mul (idleTimeout (config (tracker w))) (Fin 1000)))],
     Some (nextTimer (browser w)), clock (browser w), expired (browser w),
     Pos.succ (nextTimer (browser w)), idleTimeout (config (tracker w))).
Proof.
  unfold tracked, tview, recordInteraction, clearTimeout. intros H.
  destruct (idleTimeoutId (tracker w)) as [i|]; cbn;
    destruct (timers (browser w)) as [|[id due] [|? ?]]; cbn in *;
    try contradiction; try discriminate; try reflexivity.
  injection H as ->. now rewrite Pos.eqb_refl.
Qed.



Lemma setTheme_tview (n : string) (w : World) : tview (setTheme n w) = tview w.
Proof.
  unfold setTheme.
  destruct (themes (config (tracker w)) !! n); [|destruct (inheritedName n)];
    reflexivity.
Qed.




(** ** The passing of time *)

Lemma advance_none (t : Q) (w : World) :
  timers (browser w) = [] -> advance t w = tick t w.
Proof. unfold advance. now intros ->. Qed.


Lemma advance_due (t : Q) (w : World) (id : handle) (due : Q) :
  timers (browser w) = [(id, due)] -> due <= t ->
  advance t w = tick t (fire (id, due) w).
Proof.
  unfold advance. intros -> H. cbn. now rewrite Qle_bool_intro.
Qed.

Lemma fire_tview (id : handle) (due : Q) (w : World) :
  timers (browser w) = [(id, due)] ->
  tview (fire (id, due) w) =
    ([], idleTimeoutId (tracker w), later (clock (browser w)) due,
     expired (browser w) ++ [(id, due)], nextTimer (browser w),
     idleTimeout (config (tracker w))).
Proof.
  intros H. unfold fire, pending. rewrite H. cbn. rewrite Pos.eqb_refl. cbn.
  rewrite idleExpired_tview. unfold tview, drop_timer; cbn.
  rewrite ?H; cbn; rewrite ?Pos.eqb_refl; reflexivity.
Qed.





Lemma initialize_tview (w : World) : tview (initialize w) = tview w.
Proof. unfold initialize. now rewrite setTheme_tview. Qed.


(** ** Debouncing of the idle timeout *)


Lemma toInt32_low (q : Q) :
  - (2147483648) <= q -> q <= 0 -> (toInt32 q <= 0)%Z.
Proof.
  intros H0 H1. destruct q as [n d]. unfold toInt32. cbn [Qnum Qden].
  assert (H0' : (-2147483648 * Z.pos d <= n * 1)%Z) by exact H0.
  assert (H1' : (n * 1 <= 0 * Z.pos d)%Z) by exact H1.
  clear H0 H1.
  set (z := Z.quot n (Z.pos d)).
  assert (Hz : (- 2147483648 <= z <= 0)%Z).
  { unfold z. Z.quot_rem_to_equations. nia. }
  change (2 ^ 32)%Z with 4294967296%Z. change (2 ^ 31)%Z with 2147483648%Z.
  destruct (Z.eq_dec z 0%Z) as [E0|Hz0].
  - rewrite E0. reflexivity.
  - assert (E : (z mod 4294967296 = z + 4294967296)%Z).
    { symmetry. apply (Z.mod_unique _ _ (-1)); lia. }
    rewrite E. destruct (Z.leb_spec 2147483648 (z + 4294967296)); lia.
Qed.












(** ** The driver *)

Lemma animationLoop_scrolling (w : World) :
  isScrolling (tracker (animationLoop w)) = isScrolling (tracker w).
Proof.
  unfold animationLoop, applyScrollPosition.
  destruct (isScrolling (tracker w)) eqn:E; cbn; [|exact E].
  split_ifs;
    cbn; exact E.
Qed.

Lemma start_scrolling (w : World) :
  truthy (contentWidth (tracker w)) = true ->
  isScrolling (tracker (start w)) = true.
Proof.
  intros H. unfold start. rewrite H.
  destruct (isScrolling (tracker w)) eqn:E; cbn [orb negb]; [exact E|].
  now rewrite animationLoop_scrolling.
Qed.

Lemma start_not_ready (w : World) :
  truthy (contentWidth (tracker w)) = false -> start w = w.
Proof. intros H. unfold start. rewrite H. now rewrite orb_true_r. Qed.

Lemma pause_stops (w : World) :
  isScrolling (tracker (pause w)) = false /\
  animationFrameId (tracker (pause w)) = None.
Proof.
  unfold pause; cbn.
  destruct (animationFrameId (tracker w)) eqn:E; split; cbn; auto.
Qed.

(** [pause] withdraws the frame request it knows of. *)
Lemma pause_cancels (w : World) (id : handle) :
  frames (browser w) = [id] -> animationFrameId (tracker w) = Some id ->
  frames (browser (pause w)) = [].
Proof.
  intros Hf Hi. unfold pause; cbn. rewrite Hi. cbn. rewrite Hf. cbn.
  now rewrite Pos.eqb_refl.
Qed.

(** [destroy] leaves the [resize] listener in place: a resize after it
    throws, and the tracker is as [destroy] left it. *)
Lemma resize_after_destroy (w : World) (width : N) :
  throws (Resize width) (destroy w) = true /\
  throws CallDestroy (destroy w) = false /\
  tracker (dispatch (Resize width) (destroy w)) = tracker (destroy w).
Proof. repeat split. Qed.

Lemma destroy_idempotent (w : World) : destroy (destroy w) = destroy w.
Proof.
  destruct w as [[c th sc sp cw [id|] dr ho it lf sx ss] d b]; reflexivity.
Qed.

(** ** The claims *)

(** C9.  The callback of the idle timeout changes nothing while the pointer
    hovers, or while a drag is under way; with both flags down it is a call
    of [start], which for a paused driver that has a content width sets the
    driver running.  So such a driver is running after the expiry exactly
    when neither flag was up. *)
Theorem idle_expiry_resumes_only_when_free (w : World) :
  (isHovered (tracker w) = true -> idleExpired w = w) /\
  (isDragging (tracker w) = true -> idleExpired w = w) /\
  (isDragging (tracker w) = false -> isHovered (tracker w) = false ->
   idleExpired w = start w) /\
  (isScrolling (tracker w) = false ->
   truthy (contentWidth (tracker w)) = true ->
   (isScrolling (tracker (idleExpired w)) = true <->
    isDragging (tracker w) = false /\ isHovered (tracker w) = false)).
Proof.
  unfold idleExpired. repeat split.
  - intros ->. now rewrite andb_false_r.
  - now intros ->.
  - now intros -> ->.
  - destruct (isDragging (tracker w)); [cbn in *; congruence|reflexivity].
  - destruct (isDragging (tracker w)), (isHovered (tracker w));
      cbn in *; congruence.
  - intros [-> ->]. cbn. now apply start_scrolling.
Qed.

Lemma idle_expiry_resumes_only_when_free_witness :
  idleExpired (dispatch MouseEnter demoWorld) = dispatch MouseEnter demoWorld /\
  isScrolling (tracker (idleExpired (dispatch CallPause demoWorld))) = true.
Proof.
  destruct (idle_expiry_resumes_only_when_free (dispatch MouseEnter demoWorld))
    as (Hhover & _).
  destruct (idle_expiry_resumes_only_when_free (dispatch CallPause demoWorld))
    as (_ & _ & _ & Hfree).
  split.
  - apply Hhover. vm_compute. reflexivity.
  - apply Hfree; [vm_compute; reflexivity | vm_compute; reflexivity |].
    split; vm_compute; reflexivity.
Defined.

(** C10.  [setTheme] with a name that the themes object neither holds
    nor inherits returns the world as it was; with a name it holds,
    [currentTheme] becomes the name, the container takes the theme's
    background and text colour, and every news item of both tracks takes
    the item background and the border built from the item border colour.
    But a name the object inherits from [Object.prototype] passes the
    guard although the themes map does not hold it: [currentTheme] becomes
    that name, as for toString on the default tracker. *)
Theorem setTheme_guard_misses_inherited_names (w : World) (name : string) :
  (themes (config (tracker w)) !! name = None -> inheritedName name = false ->
   setTheme name w = w) /\
  (themes (config (tracker w)) !! name = None -> inheritedName name = true ->
   setTheme name w = on_tracker (set_currentTheme name) w) /\
  (forall th, themes (config (tracker w)) !! name = Some th ->
     let w' := setTheme name w in
     currentTheme (tracker w') = name /\
     containerBackground (dom w') = background th /\
     containerColor (dom w') = text th /\
     Forall (fun i => item_backgroundColor i = itemBg th /\
                      item_border i = ("1px solid " ++ itemBorder th)%string)
       (contentItems (dom w') ++ cloneItems (dom w')) /\
     map item_article (contentItems (dom w')) =
       map item_article (contentItems (dom w)) /\
     map item_article (cloneItems (dom w')) =
       map item_article (cloneItems (dom w))) /\
  (themes (config (tracker demoWorld)) !! "toString" = None /\
   currentTheme (tracker demoWorld) = "default"%string /\
   currentTheme (tracker (setTheme "toString" demoWorld)) = "toString"%string).
Proof.
  unfold setTheme. split; [|split; [|split]].
  - now intros -> ->.
  - now intros -> ->.
  - intros th ->. cbn. repeat split.
    + apply Forall_app. split; apply Forall_map, Forall_forall; now intros.
    + rewrite map_map. reflexivity.
    + rewrite map_map. reflexivity.
  - vm_compute. repeat split.
Qed.

Lemma setTheme_guard_misses_inherited_names_witness :
  setTheme "sepia" demoWorld = demoWorld /\
  setTheme "valueOf" demoWorld = on_tracker (set_currentTheme "valueOf") demoWorld /\
  currentTheme (tracker (setTheme "dark" demoWorld)) = "dark"%string /\
  containerBackground (dom (setTheme "dark" demoWorld)) = "#1a1a1a"%string.
Proof.
  destruct (setTheme_guard_misses_inherited_names demoWorld "sepia") as (Hno & _).
  destruct (setTheme_guard_misses_inherited_names demoWorld "valueOf")
    as (_ & Hin & _).
  destruct (setTheme_guard_misses_inherited_names demoWorld "dark")
    as (_ & _ & Hyes & _).
  split; [apply Hno; vm_compute; reflexivity|].
  split; [apply Hin; vm_compute; reflexivity|].
  destruct (Hyes (mkTheme "#1a1a1a" "#fff" "#333" "#444")) as (H1 & H2 & _).
  - vm_compute. reflexivity.
  - split; [exact H1 | exact H2].
Defined.

(** C7, as the code has it.  The [resize] listener of a tracker whose
    structure is in the page stores the newly measured width and writes
    nothing else: the scroll position, the transforms of the two tracks and
    the state of the driver are what they were, whether or not the position
    fits the new width. *)
Theorem resize_remeasures_keeps_offset (w : World) (width : N) :
  mounted (dom w) = true ->
  let w' := dispatch (Resize width) w in
  contentWidth (tracker w') = of_N width /\
  scrollPosition (tracker w') = scrollPosition (tracker w) /\
  contentTransform (dom w') = contentTransform (dom w) /\
  cloneTransform (dom w') = cloneTransform (dom w) /\
  isScrolling (tracker w') = isScrolling (tracker w) /\
  browser w' = browser w.
Proof.
  intros H. cbn. unfold onResize. cbn. rewrite H. cbn. auto 10.
Qed.

Lemma resize_remeasures_keeps_offset_witness :
  contentWidth (tracker (dispatch (Resize 300) demoWorld)) = of_N 300 /\
  scrollPosition (tracker (dispatch (Resize 300) demoWorld)) =
    scrollPosition (tracker demoWorld).
Proof.
  destruct (resize_remeasures_keeps_offset demoWorld 300) as (H1 & H2 & _).
  - vm_compute. reflexivity.
  - split; [exact H1 | exact H2].
Defined.

(** C7 as stated fails: a drag brings the offset to 500 on a track of
    1000; after a resize that measures 300 the offset is still 500, outside
    [0, 300). *)
Lemma resize_does_not_reclamp :
  let w := run [(10, MouseDown 600); (20, MouseMove 100)] demoWorld in
  let w' := step (30, Resize 300) w in
  within_closed (scrollPosition (tracker w)) 500 500 /\
  contentWidth (tracker w') = Fin 300 /\
  ~ within (scrollPosition (tracker w')) 0 300.
Proof.
  vm_compute. repeat split; try discriminate.
  intros [_ H]. discriminate H.
Qed.

(** C4.  [destroy] stops the driver and withdraws the frame request the
    tracker knows of, but leaves every pending timeout as it was.  On the
    default tracker, a press at 10 ms followed by [destroy] at 20 ms leaves
    the idle timeout pending, also after a second [destroy]; and when the
    button is released before [destroy], the timeout later fires and sets
    the driver of the destroyed tracker running again, with a frame
    requested. *)
Theorem destroy_keeps_idle_timeout :
  (forall w, timers (browser (destroy w)) = timers (browser w) /\
             isScrolling (tracker (destroy w)) = false /\
             animationFrameId (tracker (destroy w)) = None /\
             destroy (destroy w) = destroy w) /\
  (let w := run [(10, MouseDown 200); (20, CallDestroy)] demoWorld in
   length (timers (browser w)) = 1%nat /\ frames (browser w) = []) /\
  (let w := run [(10, MouseDown 200); (20, CallDestroy); (25, CallDestroy)]
              demoWorld in
   length (timers (browser w)) = 1%nat) /\
  (let w := advance 6000 (run [(10, MouseDown 200); (15, MouseUp);
                               (20, CallDestroy)] demoWorld) in
   mounted (dom w) = false /\ isScrolling (tracker w) = true /\
   length (frames (browser w)) = 1%nat).
Proof.
  split; [|repeat split; vm_compute; reflexivity].
  intros w. repeat split.
  - unfold destroy. cbn [browser]. change (timers (browser (pause w)) = timers (browser w)).
    pose proof (pause_tview w) as H. now apply (f_equal (fun v => fst (fst (fst (fst (fst v)))))) in H.
  - apply (pause_stops w).
  - apply (pause_stops w).
  - apply destroy_idempotent.
Qed.

(** ** Construction keeps the options *)

Lemma animationLoop_config (w : World) :
  config (tracker (animationLoop w)) = config (tracker w).
Proof.
  unfold animationLoop, applyScrollPosition.
  destruct (isScrolling (tracker w)); cbn; [|reflexivity].
  split_ifs;
    reflexivity.
Qed.

Lemma start_config (w : World) : config (tracker (start w)) = config (tracker w).
Proof.
  unfold start.
  destruct (isScrolling (tracker w) || negb (truthy (contentWidth (tracker w))));
    [reflexivity|].
  now rewrite animationLoop_config.
Qed.

Lemma initialize_tracker (w : World) :
  config (tracker (initialize w)) = config (tracker w) /\
  contentWidth (tracker (initialize w)) = of_N (offsetWidth (dom w)) /\
  isScrolling (tracker (initialize w)) = isScrolling (tracker w).
Proof.
  unfold initialize, setTheme. cbn.
  destruct (themes (config (tracker w)) !! "default"); cbn; auto.
Qed.

Lemma truthy_of_N (n : N) : n <> 0%N -> truthy (of_N n) = true.
Proof. destruct n; [contradiction | reflexivity]. Qed.

(** C5, as the code has it.  The constructor takes any scroll period: when
    the container is found, construction succeeds and the value given as
    [scrollSpeed] is the one in [config]; with [autoStart] and a content
    width other than zero the driver is running with it when the
    constructor returns. *)
Theorem constructor_accepts_any_period (o : Options) (p : num) (width : N) (now : Q) :
  opt_scrollSpeed o = Some p ->
  exists w,
    constructor o true width now = Some w /\
    scrollSpeed (config (tracker w)) = p /\
    (autoStart (merge o) = true -> width <> 0%N ->
     isScrolling (tracker w) = true).
Proof.
  intros Hp. unfold constructor. cbn [negb].
  set (w0 := mkWorld _ _ _).
  destruct (initialize_tracker w0) as (Hc & Hw & Hs).
  eexists. split; [reflexivity|].
  rewrite Hc. cbn [w0 tracker config].
  destruct (autoStart (merge o)) eqn:Ha.
  - split.
    + rewrite start_config, Hc. cbn. now rewrite Hp.
    + intros _ Hn. apply start_scrolling. rewrite Hw. now apply truthy_of_N.
  - split; [|discriminate]. rewrite Hc. cbn. now rewrite Hp.
Qed.

Lemma constructor_accepts_any_period_witness :
  exists w,
    constructor (mkOptions None None (Some (Fin (-3))) None None) true 1000 0 = Some w /\
    scrollSpeed (config (tracker w)) = Fin (-3) /\
    isScrolling (tracker w) = true.
Proof.
  destruct (constructor_accepts_any_period
              (mkOptions None None (Some (Fin (-3))) None None) (Fin (-3)) 1000 0
              eq_refl) as (w & H1 & H2 & H3).
  exists w. split; [exact H1|]. split; [exact H2|].
  apply H3; [reflexivity | discriminate].
Defined.

(** C5 as stated fails: construction with a scroll period of zero goes
    through, the driver runs, and its first frame, which divides by the
    period, leaves the position no finite number. *)
Lemma zero_period_accepted :
  exists w,
    constructor (mkOptions None None (Some (Fin 0)) None None) true 1000 0 = Some w /\
    scrollSpeed (config (tracker w)) = Fin 0 /\
    isScrolling (tracker w) = true /\
    scrollPosition (tracker w) = NaN.
Proof. eexists. vm_compute. repeat split. Qed.

(** ** An idle timeout that is not positive *)

Lemma recordInteraction_tracker (w : World) :
  tracker (recordInteraction w) =
    set_idleTimeoutId (Some (nextTimer (browser w))) (tracker w).
Proof.
  unfold recordInteraction, clearTimeout.
  destruct (idleTimeoutId (tracker w)); reflexivity.
Qed.

Lemma delay_ms_nonpos (d : Q) :
  d <= 0 -> - (2147483648) <= d * 1000 ->
  delay_ms (mul (Fin d) (Fin 1000)) = 0.
Proof.
  intros H Hlow. change (mul (Fin d) (Fin 1000)) with (Fin (d * 1000)).
  unfold delay_ms.
  pose proof (toInt32_low (d * 1000) Hlow ltac:(lra)) as Hz.
  now rewrite Z.max_l.
Qed.

(** Below the range of a 32-bit integer the delay wraps around: an idle
    timeout of minus 3000000 seconds makes the host wait 1294967296
    milliseconds, and one of 3000000 seconds none at all. *)
Lemma delay_ms_wraps :
  delay_ms (mul (Fin (- (3000000))) (Fin 1000)) = 1294967296 /\
  delay_ms (mul (Fin 3000000) (Fin 1000)) = 0.
Proof. vm_compute. split; reflexivity. Qed.

(** C6, as the code has it.  With an idle timeout of zero or less, whose
    milliseconds are within the range of a 32-bit integer,
    [recordInteraction] still sets a timeout, due at the present time; as
    soon as time passes it expires, and the driver of a tracker that is
    neither dragged nor hovered and has a content width is running
    again. *)
Theorem nonpositive_idle_timeout_fires_at_once (w : World) (d t : Q) :
  tracked w ->
  idleTimeout (config (tracker w)) = Fin d ->
  d <= 0 ->
  - (2147483648) <= d * 1000 ->
  clock (browser w) <= t ->
  let w' := recordInteraction w in
  exists id due,
    timers (browser w') = [(id, due)] /\
    idleTimeoutId (tracker w') = Some id /\
    due == clock (browser w) /\
    expired (browser (advance t w')) = expired (browser w) ++ [(id, due)] /\
    (isDragging (tracker w) = false -> isHovered (tracker w) = false ->
     truthy (contentWidth (tracker w)) = true ->
     isScrolling (tracker (advance t w')) = true).
Proof.
  intros Ht Hd Hle Hlow Hc w'.
  pose proof (recordInteraction_armed w Ht) as Hv. apply tview_inv in Hv.
  fold w' in Hv. destruct Hv as (H1 & H2 & H3 & H4 & _ & _).
  rewrite Hd, delay_ms_nonpos in H1 by assumption.
  exists (nextTimer (browser w)), (clock (browser w) + 0).
  split; [exact H1|]. split; [exact H2|]. split; [lra|].
  rewrite (advance_due _ _ _ _ H1) by lra.
  pose proof (fire_tview _ _ _ H1) as Hf. apply tview_inv in Hf.
  destruct Hf as (_ & _ & _ & F4 & _).
  split.
  - unfold tick. cbn [expired browser]. now rewrite F4, H4.
  - intros Hdrag Hhov Hw. unfold tick. cbn [tracker].
    unfold fire, pending. rewrite H1. cbn [existsb fst]. rewrite Pos.eqb_refl.
    cbn [orb]. unfold idleExpired. cbn [tracker].
    unfold w'. rewrite recordInteraction_tracker. cbn [isDragging isHovered set_idleTimeoutId].
    rewrite Hdrag, Hhov. cbn [negb andb].
    apply start_scrolling. cbn. exact Hw.
Qed.

Lemma nonpositive_idle_timeout_fires_at_once_witness :
  let w := dispatch CallPause (built eagerOptions 1000 0) in
  exists id due,
    timers (browser (recordInteraction w)) = [(id, due)] /\
    due == 0 /\
    isScrolling (tracker (advance 1 (recordInteraction w))) = true.
Proof.
  intros w.
  destruct (nonpositive_idle_timeout_fires_at_once w 0 1)
    as (id & due & H1 & _ & H3 & _ & H5).
  - vm_compute. exact I.
  - vm_compute. reflexivity.
  - lra.
  - lra.
  - vm_compute. discriminate.
  - exists id, due. split; [exact H1|]. split; [exact H3|].
    apply H5; vm_compute; reflexivity.
Defined.

(** C6 as stated fails: with an idle timeout of zero, the release of the
    pointer leaves a timeout pending, and it expires at that very time and
    sets the paused driver running. *)
Lemma zero_idle_timeout_still_resumes :
  let w := run [(10, MouseDown 5); (20, MouseUp)] (built eagerOptions 1000 0) in
  length (timers (browser w)) = 1%nat /\
  isScrolling (tracker w) = false /\
  isScrolling (tracker (advance 20 w)) = true /\
  length (expired (browser (advance 20 w))) = 2%nat.
Proof. vm_compute. repeat split. Qed.




(** ** Dragging *)

Lemma fire_dragging (p : handle * Q) (w : World) :
  isDragging (tracker w) = true -> tracker (fire p w) = tracker w.
Proof.
  intros H. unfold fire. destruct (pending (fst p) w); [|reflexivity].
  unfold idleExpired. cbn [tracker]. rewrite H. reflexivity.
Qed.

Lemma advance_dragging (t : Q) (w : World) :
  isDragging (tracker w) = true -> tracker (advance t w) = tracker w.
Proof.
  unfold advance.
  generalize (sort_due (List.filter (fun p => Qle_bool (snd p) t) (timers (browser w)))).
  intros l. revert w. induction l as [|p l IH]; intros w H; [reflexivity|].
  cbn [fold_left]. rewrite IH; rewrite fire_dragging; auto.
Qed.

Lemma recordInteraction_dom (w : World) : dom (recordInteraction w) = dom w.
Proof.
  unfold recordInteraction, clearTimeout.
  destruct (idleTimeoutId (tracker w)); reflexivity.
Qed.

Lemma recordInteraction_dragging (w : World) (a b L : Q) :
  dragging_from w a b L -> dragging_from (recordInteraction w) a b L.
Proof.
  unfold dragging_from. now rewrite recordInteraction_tracker.
Qed.

(** A press, of the mouse or of a touch, on finite data begins a drag from
    the position and the width of that moment. *)
Lemma press_begins_drag (h : Q -> World -> World) (x b L : Q) (w : World) :
  h = handleMouseDown \/ h = handleTouchStart ->
  scrollPosition (tracker w) = Fin b ->
  contentWidth (tracker w) = Fin L ->
  dragging_from (h x w) x b L.
Proof.
  intros Hh Hb HL.
  assert (E : h x w =
    recordInteraction
      (pause
         (on_tracker (fun t => set_startScrollPosition (scrollPosition t) t)
            (on_tracker (set_startX (Fin x))
               (on_tracker (set_isDragging true) w)))))
    by (destruct Hh as [-> | ->]; reflexivity).
  rewrite E. apply recordInteraction_dragging.
  unfold dragging_from, pause. cbn.
  destruct (animationFrameId (tracker w)); cbn; auto.
Qed.

(** The position a move computes from the origin of the drag. *)
Lemma dragged_position (x a b L : Q) :
  0 <= L ->
  exists q,
    max (Fin 0) (min (sub (Fin b) (sub (Fin x) (Fin a))) (Fin L)) = Fin q /\
    q == clamp (b - (x - a)) 0 L /\ 0 <= q /\ q <= L.
Proof.
  intros Hpos.
  destruct (max_min_clamp (b - (x - a)) L Hpos) as (q & Hq & Hq').
  exists q. split; [exact Hq|]. split; [exact Hq'|].
  rewrite Hq'. now apply clamp_range.
Qed.

(** A move handler during a drag: the new position, the two transforms, and
    the origin of the drag, which it keeps. *)
Lemma handle_move_dragging (h : Q -> World -> World) (x a b L : Q) (w : World) :
  h = handleMouseMove \/ h = handleTouchMove ->
  dragging_from w a b L ->
  let p := max (Fin 0) (min (sub (Fin b) (sub (Fin x) (Fin a))) (Fin L)) in
  scrollPosition (tracker (h x w)) = p /\
  contentTransform (dom (h x w)) = Some (neg p) /\
  cloneTransform (dom (h x w)) = Some (neg p) /\
  dragging_from (h x w) a b L.
Proof.
  intros Hh (Hd & Ha & Hb & HL) p.
  assert (E : h x w =
    recordInteraction
      (applyScrollPosition
         (on_tracker
            (fun t =>
               set_scrollPosition
                 (max (Fin 0)
                    (min (sub (startScrollPosition t) (sub (Fin x) (startX t)))
                       (contentWidth t))) t) w))).
  { destruct Hh as [-> | ->]; unfold handleMouseMove, handleTouchMove;
      now rewrite Hd. }
  rewrite E.
  match goal with
  | |- context [applyScrollPosition ?u] => set (w1 := u)
  end.
  assert (Hp : scrollPosition (tracker w1) = p)
    by (subst w1; cbn; now rewrite Ha, Hb, HL).
  assert (Hq : exists q, p = Fin q)
    by (unfold p, max, min, sub, add, neg; eexists; reflexivity).
  destruct Hq as (q & Hq).
  destruct (applyScrollPosition_rest w1) as (Ht & _).
  destruct (applyScrollPosition_finite w1 q) as (H1 & H2); [congruence|].
  change (Fin (- q)) with (neg (Fin q)) in H1, H2. rewrite <- Hq in H1, H2.
  split; [|split; [|split]].
  - rewrite recordInteraction_tracker. cbn [scrollPosition set_idleTimeoutId].
    now rewrite Ht.
  - now rewrite recordInteraction_dom.
  - now rewrite recordInteraction_dom.
  - apply recordInteraction_dragging. unfold dragging_from. rewrite Ht.
    subst w1. cbn. auto.
Qed.

(** A move event during a drag leaves the tracker within the bounds and the
    drag as it was. *)
Lemma step_move_dragging (t : Q) (e : Event) (w : World) (a b L : Q) :
  0 <= L -> is_move e = true -> dragging_from w a b L ->
  dragging_from (step (t, e) w) a b L /\
  within_closed (scrollPosition (tracker (step (t, e) w))) 0 L.
Proof.
  intros Hpos He Hw. unfold step; cbn [fst snd].
  assert (Ha : dragging_from (advance t w) a b L).
  { unfold dragging_from in *. now rewrite advance_dragging. }
  assert (Hx : exists h y, (h = handleMouseMove \/ h = handleTouchMove) /\
                 dispatch e (advance t w) = recordInteraction (h y (advance t w))).
  { destruct e; try discriminate; cbn [dispatch]; eauto 6. }
  destruct Hx as (h & y & Hh & ->).
  destruct (handle_move_dragging h y a b L _ Hh Ha) as (H1 & _ & _ & H4).
  split; [now apply recordInteraction_dragging|].
  rewrite recordInteraction_tracker. cbn [scrollPosition set_idleTimeoutId].
  rewrite H1. destruct (dragged_position y a b L Hpos) as (q & -> & _ & Hq).
  exact Hq.
Qed.

Lemma run_moves_dragging (moves : list (Q * Event)) (w : World) (a b L : Q) :
  0 <= L -> Forall (fun te => is_move (snd te) = true) moves ->
  dragging_from w a b L ->
  within_closed (scrollPosition (tracker w)) 0 L ->
  within_closed (scrollPosition (tracker (run moves w))) 0 L.
Proof.
  intros Hpos. revert w.
  induction moves as [|[t e] l IH]; intros w Hm Hw Hr; [exact Hr|].
  apply Forall_cons in Hm as [He Hl]. cbn [snd] in He.
  change (run ((t, e) :: l) w) with (run l (step (t, e) w)).
  destruct (step_move_dragging t e w a b L Hpos He Hw) as (H1 & H2).
  now apply IH.
Qed.

(** Outside a drag a move event still runs its second listener: the idle
    timeout is set anew and nothing else changes. *)
Lemma move_outside_drag (e : Event) (w : World) :
  is_move e = true -> isDragging (tracker w) = false ->
  dispatch e w = recordInteraction w.
Proof.
  intros He Hd.
  destruct e; try discriminate; cbn [dispatch];
    unfold handleMouseMove, handleTouchMove; now rewrite Hd.
Qed.

(** C3, as the code has it.  While a drag is under way whose origin, the
    pointer and the position at the press, is finite, on a content width
    that is finite and not negative, a move of the mouse or of the touch to
    [x] sets the position to [clamp (origin - (x - pointer)) 0 width], which
    is within [0, width], and both tracks are translated by its negation;
    the position is within [0, width] after each of any run of moves,
    whatever their positions.  While no drag is under way the two move
    handlers return the world as it was. *)
Theorem drag_move_clamps (w v : World) (x a b L : Q) (moves : list (Q * Event)) :
  dragging_from w a b L ->
  0 <= L ->
  isDragging (tracker v) = false ->
  Forall (fun te => is_move (snd te) = true) moves ->
  moves <> [] ->
  (forall h, h = handleMouseMove \/ h = handleTouchMove ->
     exists q,
       scrollPosition (tracker (h x w)) = Fin q /\
       q == clamp (b - (x - a)) 0 L /\
       within_closed (scrollPosition (tracker (h x w))) 0 L /\
       contentTransform (dom (h x w)) = Some (Fin (- q)) /\
       cloneTransform (dom (h x w)) = Some (Fin (- q))) /\
  within_closed (scrollPosition (tracker (run moves w))) 0 L /\
  handleMouseMove x v = v /\
  handleTouchMove x v = v.
Proof.
  intros Hw Hpos Hv Hm Hne.
  split; [|split; [|split]].
  - intros h Hh.
    destruct (handle_move_dragging h x a b L w Hh Hw) as (H1 & H2 & H3 & _).
    destruct (dragged_position x a b L Hpos) as (q & Hq & Hq' & Hr).
    rewrite Hq in H1, H2, H3. exists q. rewrite H1. auto 10.
  - destruct moves as [|[t e] l]; [contradiction|].
    apply Forall_cons in Hm as [He Hl]. cbn [snd] in He.
    change (run ((t, e) :: l) w) with (run l (step (t, e) w)).
    destruct (step_move_dragging t e w a b L Hpos He Hw) as (H1 & H2).
    now apply (run_moves_dragging l _ a b L).
  - unfold handleMouseMove. now rewrite Hv.
  - unfold handleTouchMove. now rewrite Hv.
Qed.

Lemma drag_move_clamps_witness :
  let w := run [(10, MouseDown 100); (20, MouseMove 50); (30, MouseUp);
                (40, MouseDown 200)] demoWorld in
  exists q,
    scrollPosition (tracker (handleMouseMove 150 w)) = Fin q /\
    q == clamp ((10000000 # 200000) - (150 - 200)) 0 1000 /\
    handleTouchMove 150 demoWorld = demoWorld.
Proof.
  intros w.
  destruct (drag_move_clamps w demoWorld 150 200 (10000000 # 200000) 1000
              [(50, MouseMove 150)])
    as (H1 & _ & _ & H4).
  - vm_compute. repeat split.
  - vm_compute. discriminate.
  - vm_compute. reflexivity.
  - repeat constructor.
  - discriminate.
  - destruct (H1 handleMouseMove) as (q & Hq & Hq' & _); [now left|].
    exists q. split; [exact Hq|]. split; [exact Hq' | exact H4].
Defined.

(** The second scenario of the specification: a drag begun at offset 50 with
    the pointer at 200, moved to 150, brings the offset to 100. *)
Example drag_from_50_to_100 :
  let w := run [(10, MouseDown 100); (20, MouseMove 50); (30, MouseUp);
                (40, MouseDown 200)] demoWorld in
  within_closed (scrollPosition (tracker w)) 50 50 /\
  within_closed (scrollPosition (tracker (step (50, MouseMove 150) w))) 100 100.
Proof. vm_compute. repeat split; discriminate. Qed.

(** ** Frames *)

Lemma div_fin (x y : Q) : ~ y == 0 -> div (Fin x) (Fin y) = Fin (x / y).
Proof. intros H. unfold div, Qzero_b. now rewrite Qeq_bool_false. Qed.

(** One callback of the driver on finite data. *)
Lemma animationLoop_finite (w : World) (W P q t0 : Q) :
  isScrolling (tracker w) = true ->
  contentWidth (tracker w) = Fin W ->
  scrollSpeed (config (tracker w)) = Fin P ->
  ~ P == 0 ->
  scrollPosition (tracker w) = Fin q ->
  lastFrameTime (tracker w) = Fin t0 ->
  let q' := wrap W (q + (clock (browser w) - t0) / 1000 * (W / 2 / P)) in
  let w' := animationLoop w in
  scrollPosition (tracker w') = Fin q' /\
  contentTransform (dom w') = Some (Fin (- q')) /\
  cloneTransform (dom w') = Some (Fin (- q')) /\
  lastFrameTime (tracker w') = Fin (clock (browser w)) /\
  isScrolling (tracker w') = true /\
  contentWidth (tracker w') = Fin W /\
  config (tracker w') = config (tracker w) /\
  frames (browser w') = frames (browser w) ++ [nextFrame (browser w)] /\
  timers (browser w') = timers (browser w) /\
  clock (browser w') = clock (browser w).
Proof.
  intros Hs HW HP HP0 Hq Ht q' w'. subst w'. unfold animationLoop.
  rewrite Hs. cbn. unfold performance_now. rewrite HW, HP, Hq, Ht.
  change (sub (Fin (clock (browser w))) (Fin t0)) with (Fin (clock (browser w) - t0)).
  rewrite !div_fin by (assumption || lra).
  change (mul (Fin ?a) (Fin ?b)) with (Fin (a * b)).
  change (add (Fin ?a) (Fin ?b)) with (Fin (a + b)).
  unfold ge. subst q'. unfold wrap.
  destruct (Qle_bool W _); cbn; rewrite ?HW; auto 15.
Qed.

Lemma driving_eq (w : World) (W P pos pos' : Q) :
  pos == pos' -> driving w W P pos -> driving w W P pos'.
Proof.
  intros E [H1 H2 H3 H4 H5 H6 (q & Hq & Hq') (r & Hr1 & Hr2 & Hr')].
  constructor; try assumption.
  - exists q. split; [assumption|]. now rewrite <- E.
  - exists r. repeat split; try assumption. now rewrite <- E.
Qed.

Lemma wrap_below (W v : Q) : v < W -> wrap W v = v.
Proof. intros H. unfold wrap. now rewrite Qle_bool_elim. Qed.

(** The normalization step keeps the position within [0, width) when the
    frame moved it on by no more than the width. *)
Lemma wrap_range (W q step : Q) :
  0 <= q -> q < W -> 0 <= step -> step <= W ->
  0 <= wrap W (q + step) /\ wrap W (q + step) < W.
Proof.
  intros H1 H2 H3 H4. unfold wrap.
  destruct (Qle_bool W (q + step)) eqn:E.
  - apply Qle_bool_true in E. lra.
  - apply Qle_bool_false in E. lra.
Qed.

Lemma wrap_eq (W q q' : Q) : q == q' -> wrap W q == wrap W q'.
Proof.
  intros E. unfold wrap.
  destruct (Qle_bool W q) eqn:E1, (Qle_bool W q') eqn:E2;
    try (now rewrite E);
    [apply Qle_bool_true in E1; apply Qle_bool_false in E2
    |apply Qle_bool_false in E1; apply Qle_bool_true in E2]; lra.
Qed.

(** A frame at time [t] moves the running driver on by the time elapsed
    times half the width per period, less the width when it is reached. *)
Lemma step_frame_wrap (w : World) (W P pos t : Q) :
  driving w W P pos -> 0 < P -> clock (browser w) <= t ->
  driving (step (t, AnimationFrame) w) W P
    (wrap W (pos + (t - clock (browser w)) / 1000 * (W / 2 / P))) /\
  clock (browser (step (t, AnimationFrame) w)) = t.
Proof.
  intros [H1 H2 H3 H4 (id & H5) H6 (q & Hq & Hq') _] HP Hc.
  unfold step; cbn [fst snd dispatch].
  rewrite advance_none by assumption.
  unfold runFrame, tick. cbn [browser frames]. rewrite H5. cbn [fold_left].
  set (X := mkWorld _ _ _).
  assert (HX : clock (browser X) = t) by (cbn; now apply later_le).
  destruct (animationLoop_finite X W P q (clock (browser w)))
    as (A1 & A2 & A3 & A4 & A5 & A6 & A7 & A8 & A9 & A10);
    try assumption; [lra|].
  rewrite HX in A1, A2, A3, A4.
  assert (E : wrap W (q + (t - clock (browser w)) / 1000 * (W / 2 / P)) ==
              wrap W (pos + (t - clock (browser w)) / 1000 * (W / 2 / P)))
    by (apply wrap_eq; now rewrite Hq').
  split; [|now rewrite A10].
  constructor; try assumption.
  - now rewrite A7.
  - now rewrite A4, A10, HX.
  - exists (nextFrame (browser w)). now rewrite A8.
  - now rewrite A9.
  - eexists. split; [exact A1 | exact E].
  - eexists. split; [exact A2|]. split; [exact A3|]. now rewrite E.
Qed.

Lemma step_frame (w : World) (W P pos t : Q) :
  driving w W P pos -> 0 < P -> clock (browser w) <= t ->
  pos + (t - clock (browser w)) / 1000 * (W / 2 / P) < W ->
  driving (step (t, AnimationFrame) w) W P
    (pos + (t - clock (browser w)) / 1000 * (W / 2 / P)) /\
  clock (browser (step (t, AnimationFrame) w)) = t.
Proof.
  intros Hd HP Hc Hlt.
  destruct (step_frame_wrap w W P pos t Hd HP Hc) as (H1 & H2).
  split; [|exact H2].
  apply (driving_eq _ W P _ _ (eq_subrelation _ _ _ (wrap_below W _ Hlt)) H1).
Qed.

(** The wrap invariant, where the exact arithmetic of this model has it
    (the rounding of doubles is left out): as long as no frame comes later
    than two periods after the one before, a position within [0, width)
    is within [0, width) after every frame. *)
Lemma frames_stay_wrapped (W P : Q) (times : list Q) :
  0 < P -> 0 <= W ->
  forall (w : World) (pos : Q),
    driving w W P pos -> 0 <= pos -> pos < W ->
    paced (2000 * P) (clock (browser w)) times ->
    within (scrollPosition (tracker (run (frames_at times) w))) 0 W.
Proof.
  intros HP HW.
  induction times as [|t rest IH]; intros w pos Hd H0 H1 Hp.
  - cbn. destruct Hd as [_ _ _ _ _ _ (q & -> & Hq) _]. cbn. now rewrite Hq.
  - destruct Hp as (Hp1 & Hp2 & Hp3).
    change (run (frames_at (t :: rest)) w)
      with (run (frames_at rest) (step (t, AnimationFrame) w)).
    destruct (step_frame_wrap w W P pos t Hd HP Hp1) as (Hd1 & Hc1).
    assert (Hstep : 0 <= (t - clock (browser w)) / 1000 * (W / 2 / P) <= W).
    { assert (E : (t - clock (browser w)) / 1000 * (W / 2 / P) ==
                  (t - clock (browser w)) / (2000 * P) * W) by (field; lra).
      rewrite E. split.
      - apply Qmult_le_0_compat; [|assumption].
        apply Qle_shift_div_l; lra.
      - apply (Qle_trans _ (1 * W)); [|lra].
        apply Qmult_le_compat_r; [|assumption].
        apply Qle_shift_div_r; lra. }
    destruct (wrap_range W pos _ H0 H1 (proj1 Hstep) (proj2 Hstep)) as (R0 & R1).
    apply (IH _ _ Hd1 R0 R1). now rewrite Hc1.
Qed.

Lemma last_cons (t c : Q) (rest : list Q) :
  List.last (t :: rest) c = List.last rest t.
Proof.
  revert t c. induction rest as [|a l IH]; intros t c; [reflexivity|].
  change (List.last (t :: a :: l) c) with (List.last (a :: l) c).
  now rewrite (IH a c), (IH a t).
Qed.

Lemma ordered_last (t : Q) (rest : list Q) : ordered t rest -> t <= List.last rest t.
Proof.
  revert t. induction rest as [|a l IH]; intros t H; [cbn; lra|].
  destruct H as (H1 & H2). rewrite last_cons.
  apply IH in H2. lra.
Qed.

(** Frames at any increasing times: the position moves on by the time
    elapsed in all, as long as the width is not reached. *)
Lemma run_frames (W P : Q) (times : list Q) :
  0 < P -> 0 <= W ->
  forall (w : World) (pos : Q),
    driving w W P pos ->
    ordered (clock (browser w)) times ->
    let t := List.last times (clock (browser w)) in
    pos + (t - clock (browser w)) / 1000 * (W / 2 / P) < W ->
    driving (run (frames_at times) w) W P
      (pos + (t - clock (browser w)) / 1000 * (W / 2 / P)) /\
    clock (browser (run (frames_at times) w)) = t.
Proof.
  intros HP HW.
  induction times as [|t1 rest IH]; intros w pos Hd Ho t Hlt; subst t.
  - cbn. split; [|reflexivity].
    apply (driving_eq w W P pos); [|assumption].
    cbn. field. lra.
  - destruct Ho as (Ho1 & Ho2).
    rewrite last_cons in *.
    pose proof (ordered_last _ _ Ho2) as Hlast.
    assert (Hc : 0 <= W / 2 / P).
    { apply (Qle_trans _ (0 / 2 / P)); [unfold Qdiv; lra|].
      apply Qdiv_le_mono; [assumption|]. apply Qdiv_le_mono; [lra | assumption]. }
    assert (Hs : pos + (t1 - clock (browser w)) / 1000 * (W / 2 / P) < W).
    { eapply Qle_lt_trans; [|exact Hlt].
      apply Qplus_le_r. apply Qmult_le_compat_r; [|assumption].
      apply Qdiv_le_mono; lra. }
    destruct (step_frame w W P pos t1 Hd HP Ho1 Hs) as (Hd1 & Hc1).
    change (run (frames_at (t1 :: rest)) w)
      with (run (frames_at rest) (step (t1, AnimationFrame) w)).
    specialize (IH _ _ Hd1). rewrite Hc1 in IH. specialize (IH Ho2).
    cbn zeta in IH.
    assert (E : pos + (t1 - clock (browser w)) / 1000 * (W / 2 / P) +
                (List.last rest t1 - t1) / 1000 * (W / 2 / P) ==
                pos + (List.last rest t1 - clock (browser w)) / 1000 * (W / 2 / P)).
    { field. lra. }
    destruct IH as (I1 & I2); [rewrite E; exact Hlt|].
    split; [|exact I2].
    now apply (driving_eq _ W P _ _ E).
Qed.

Lemma demoWorld_driving : driving demoWorld 1000 100 0.
Proof.
  constructor; try (vm_compute; reflexivity).
  - exists 1%positive. vm_compute. reflexivity.
  - eexists. split; [vm_compute; reflexivity|]. reflexivity.
  - eexists. split; [vm_compute; reflexivity|].
    split; [vm_compute; reflexivity|]. reflexivity.
Qed.

(** C1, as the code has it.  A frame callback of the running driver on
    finite data moves the position on by the seconds elapsed times
    [(width / 2) / period], half the width per period, and subtracts the
    width once when the width is reached; both tracks are translated by the
    negation of the result.  On a track of 1000 with a period of 100, any
    frames that span one second bring the position from 0 to 5 and both
    tracks to -5. *)
Theorem frame_speed_is_half_width_per_period
    (w : World) (W P q t0 : Q) (times : list Q) :
  isScrolling (tracker w) = true ->
  contentWidth (tracker w) = Fin W ->
  scrollSpeed (config (tracker w)) = Fin P ->
  ~ P == 0 ->
  scrollPosition (tracker w) = Fin q ->
  lastFrameTime (tracker w) = Fin t0 ->
  ordered 0 times ->
  List.last times 0 == 1000 ->
  (let elapsed := (clock (browser w) - t0) / 1000 in
   let q' := wrap W (q + elapsed * (W / 2 / P)) in
   scrollPosition (tracker (animationLoop w)) = Fin q' /\
   contentTransform (dom (animationLoop w)) = Some (Fin (- q')) /\
   cloneTransform (dom (animationLoop w)) = Some (Fin (- q'))) /\
  (let w1 := run (frames_at times) demoWorld in
   exists q1 r1,
     scrollPosition (tracker w1) = Fin q1 /\ q1 == 5 /\
     contentTransform (dom w1) = Some (Fin r1) /\
     cloneTransform (dom w1) = Some (Fin r1) /\ r1 == - (5)).
Proof.
  intros Hs HW HP HP0 Hq Ht Ho Hl. split.
  - destruct (animationLoop_finite w W P q t0 Hs HW HP HP0 Hq Ht)
      as (A1 & A2 & A3 & _).
    cbn zeta. auto.
  - assert (Hclk : clock (browser demoWorld) = 0) by (vm_compute; reflexivity).
    pose proof (run_frames 1000 100 times) as R.
    specialize (R ltac:(lra) ltac:(lra) demoWorld 0 demoWorld_driving).
    rewrite Hclk in R. specialize (R Ho). cbn zeta in R.
    assert (E : 0 + (List.last times 0 - 0) / 1000 * (1000 / 2 / 100) == 5).
    { rewrite Hl. reflexivity. }
    destruct R as ([_ _ _ _ _ _ (q1 & Q1 & Q2) (r1 & R1 & R2 & R3)] & _).
    { rewrite E. reflexivity. }
    cbn zeta. exists q1, r1. rewrite E in Q2, R3. auto 10.
Qed.

Lemma frame_speed_is_half_width_per_period_witness :
  let w := tick 1000 demoWorld in
  scrollPosition (tracker (animationLoop w)) =
    Fin (wrap 1000 ((0 # 200000) + (clock (browser w) - 0) / 1000 * (1000 / 2 / 100))) /\
  exists q1,
    scrollPosition (tracker (run (frames_at [250; 500; 1000]) demoWorld)) = Fin q1 /\
    q1 == 5.
Proof.
  intros w.
  destruct (frame_speed_is_half_width_per_period w 1000 100 (0 # 200000) 0
              [250; 500; 1000])
    as ((H1 & _) & q1 & r1 & H2 & H3 & _).
  - vm_compute. reflexivity.
  - vm_compute. reflexivity.
  - vm_compute. reflexivity.
  - lra.
  - vm_compute. reflexivity.
  - vm_compute. reflexivity.
  - vm_compute. repeat split; discriminate.
  - reflexivity.
  - split; [exact H1|]. exists q1. split; [exact H2 | exact H3].
Defined.

(** C1 as stated fails: on a track of 1000 with a period of 100, one
    second of scrolling leaves the position at 5 and both tracks
    translated by -5, not about 10 and -10. *)
Lemma one_second_scrolls_half :
  let w := run [(1000, AnimationFrame)] demoWorld in
  contentWidth (tracker w) = Fin 1000 /\
  scrollSpeed (config (tracker w)) = Fin 100 /\
  within_closed (scrollPosition (tracker w)) 5 5 /\
  ~ within_closed (scrollPosition (tracker w)) 9 11 /\
  translated (contentTransform (dom w)) (- (5)) (- (5)) /\
  translated (cloneTransform (dom w)) (- (5)) (- (5)).
Proof.
  vm_compute. repeat split; try discriminate.
  intros [H _]. apply H. reflexivity.
Qed.

(** C2.  The normalization step subtracts the width once.  On the default
    tracker with a track of 1000, whose position 0 is within [0, 1000), a
    frame that comes 400 seconds after the last one leaves the position at
    1000, and one that comes 1000 seconds after it leaves the position at
    4000: in both cases outside [0, 1000) after the normalization. *)
Theorem long_frame_escapes_wrap :
  within (scrollPosition (tracker demoWorld)) 0 1000 /\
  (let w := run [(400000, AnimationFrame)] demoWorld in
   contentWidth (tracker w) = Fin 1000 /\
   within_closed (scrollPosition (tracker w)) 1000 1000 /\
   ~ within (scrollPosition (tracker w)) 0 1000) /\
  (let w := run [(1000000, AnimationFrame)] demoWorld in
   contentWidth (tracker w) = Fin 1000 /\
   within_closed (scrollPosition (tracker w)) 4000 4000 /\
   ~ within (scrollPosition (tracker w)) 0 1000).
Proof.
  vm_compute. repeat split; try discriminate.
  - intros [_ H]. discriminate H.
  - intros [_ H]. discriminate H.
Qed.

(** ** Drags on a tracker built with a finite period *)

Ltac fin_split :=
  unfold finite_state, finite_tracker;
  refine (conj _ (conj _ (conj _ (conj _ _)))).

Lemma finite_of_N (n : N) : exists W, of_N n = Fin W /\ 0 <= W.
Proof.
  eexists. split; [reflexivity|].
  change 0 with (inject_Z 0). rewrite <- Zle_Qle. lia.
Qed.

Lemma animationLoop_drag (w : World) :
  isDragging (tracker (animationLoop w)) = isDragging (tracker w) /\
  startX (tracker (animationLoop w)) = startX (tracker w) /\
  startScrollPosition (tracker (animationLoop w)) = startScrollPosition (tracker w).
Proof.
  unfold animationLoop, applyScrollPosition.
  destruct (isScrolling (tracker w)); cbn; [|auto].
  split_ifs; auto.
Qed.

Lemma animationLoop_fin (w : World) : finite_state w -> finite_state (animationLoop w).
Proof.
  intros H. destruct (isScrolling (tracker w)) eqn:Hs.
  - destruct H as ((P & HP & HP0) & (q & Hq) & (W & HW & HW0) & Hl & Hd).
    destruct (Hl Hs) as (t0 & Ht0).
    destruct (animationLoop_finite w W P q t0 Hs HW HP HP0 Hq Ht0)
      as (A1 & _ & _ & A4 & A5 & A6 & A7 & _).
    destruct (animationLoop_drag w) as (D1 & D2 & D3).
    fin_split; rewrite ?A7, ?A1, ?A6, ?A4, ?D1, ?D2, ?D3; eauto.
  - unfold animationLoop. now rewrite Hs.
Qed.

Lemma start_fin (w : World) : finite_state w -> finite_state (start w).
Proof.
  intros H. unfold start.
  destruct (isScrolling (tracker w) || negb (truthy (contentWidth (tracker w))));
    [exact H|].
  apply animationLoop_fin.
  destruct H as (HP & Hq & HW & Hl & Hd).
  fin_split; cbn; eauto.
Qed.

Lemma pause_fin (w : World) : finite_state w -> finite_state (pause w).
Proof.
  intros (HP & Hq & HW & Hl & Hd). unfold pause. cbn.
  destruct (animationFrameId (tracker w)); fin_split; cbn; auto; discriminate.
Qed.

Lemma record_fin (w : World) : finite_state w -> finite_state (recordInteraction w).
Proof.
  intros H. unfold finite_state. rewrite recordInteraction_tracker. exact H.
Qed.

Lemma setTheme_fin (n : string) (w : World) :
  finite_state w -> finite_state (setTheme n w).
Proof.
  intros H. unfold setTheme.
  destruct (themes (config (tracker w)) !! n); [|destruct (inheritedName n)];
    exact H.
Qed.

(** A press takes the position of the moment, which is finite, as the
    origin of the drag. *)
Lemma press_fin (x : Q) (w : World) :
  finite_state w ->
  finite_state
    (on_tracker (fun t => set_startScrollPosition (scrollPosition t) t)
       (on_tracker (set_startX (Fin x))
          (on_tracker (set_isDragging true) w))).
Proof.
  intros (HP & (q & Hq) & HW & Hl & Hd).
  fin_split; cbn; eauto.
Qed.

(** A move during a drag on finite data writes a finite position. *)
Lemma move_fin (x : Q) (w : World) :
  finite_state w -> isDragging (tracker w) = true ->
  finite_state
    (applyScrollPosition
       (on_tracker
          (fun t =>
             set_scrollPosition
               (max (Fin 0)
                  (min (sub (startScrollPosition t) (sub (Fin x) (startX (tracker w))))
                     (contentWidth t))) t) w)).
Proof.
  intros (HP & Hq & (W & HW & HW0) & Hl & Hd) E.
  unfold finite_state. destruct (applyScrollPosition_rest
    (on_tracker
       (fun t =>
          set_scrollPosition
            (max (Fin 0)
               (min (sub (startScrollPosition t) (sub (Fin x) (startX (tracker w))))
                  (contentWidth t))) t) w)) as (-> & _).
  fin_split; cbn; eauto.
  destruct (Hd E) as (a & b & -> & ->). rewrite HW.
  unfold max, min, sub, add, neg. eauto.
Qed.

Lemma fire_fin (p : handle * Q) (w : World) : finite_state w -> finite_state (fire p w).
Proof.
  intros H. unfold fire. destruct (pending (fst p) w); [|exact H].
  unfold idleExpired. cbn [tracker].
  destruct (negb (isDragging (tracker w)) && negb (isHovered (tracker w)));
    [apply start_fin|]; exact H.
Qed.

Lemma advance_fin (t : Q) (w : World) : finite_state w -> finite_state (advance t w).
Proof.
  unfold advance.
  generalize (sort_due (List.filter (fun p => Qle_bool (snd p) t) (timers (browser w)))).
  intros l. revert w. induction l as [|p l IH]; intros w H.
  - exact H.
  - cbn [fold_left]. apply IH. now apply fire_fin.
Qed.

Lemma runFrame_fin (w : World) : finite_state w -> finite_state (runFrame w).
Proof.
  unfold runFrame. set (w' := mkWorld _ _ _).
  intros H. assert (H' : finite_state w') by exact H. revert H'. generalize w'.
  induction (frames (browser w)) as [|f l IH]; intros v Hv; cbn [fold_left].
  - exact Hv.
  - apply IH. now apply animationLoop_fin.
Qed.

Lemma dispatch_fin (e : Event) (w : World) : finite_state w -> finite_state (dispatch e w).
Proof.
  intros H. destruct e; cbn [dispatch].
  - apply pause_fin. exact H.
  - unfold handleMouseUp. apply record_fin.
    assert (G : forall u, finite_state u ->
                  finite_state (on_tracker (set_isDragging false) u)).
    { intros u (HP & Hq & HW & Hl & Hd). fin_split; cbn; auto; discriminate. }
    apply G.
    destruct (negb (isDragging (tracker (on_tracker (set_isHovered false) w))));
      [apply start_fin|]; exact H.
  - unfold handleMouseDown. apply record_fin, pause_fin, press_fin, H.
  - apply record_fin. unfold handleMouseMove.
    destruct (isDragging (tracker w)) eqn:E; cbn [negb]; [|exact H].
    apply record_fin. now apply move_fin.
  - unfold handleMouseUp. apply record_fin.
    destruct H as (HP & Hq & HW & Hl & Hd). fin_split; cbn; auto; discriminate.
  - unfold handleTouchStart. apply record_fin, pause_fin, press_fin, H.
  - apply record_fin. unfold handleTouchMove.
    destruct (isDragging (tracker w)) eqn:E; cbn [negb]; [|exact H].
    apply record_fin. now apply move_fin.
  - unfold handleTouchEnd. apply record_fin.
    destruct H as (HP & Hq & HW & Hl & Hd). fin_split; cbn; auto; discriminate.
  - unfold onResize. destruct (mounted (dom (set_layout width w))); [|exact H].
    destruct H as (HP & Hq & HW & Hl & Hd). fin_split; cbn; auto.
    apply finite_of_N.
  - destruct (mounted (dom w)); [now apply setTheme_fin | exact H].
  - now apply runFrame_fin.
  - now apply start_fin.
  - now apply pause_fin.
  - now apply setTheme_fin.
  - unfold updateNews. cbn. destruct (mounted (dom w)).
    + destruct H as (HP & Hq & HW & Hl & Hd). fin_split; cbn; auto.
      apply finite_of_N.
    + exact H.
  - unfold destroy. apply (pause_fin w) in H. exact H.
Qed.

Lemma run_fin (trace : list (Q * Event)) (w : World) :
  finite_state w -> finite_state (run trace w).
Proof.
  revert w. induction trace as [|te trace IH]; intros w H; [exact H|].
  apply IH. unfold step. now apply dispatch_fin, advance_fin.
Qed.

Lemma initialize_fin (w : World) :
  (exists P, scrollSpeed (config (tracker w)) = Fin P /\ ~ P == 0) ->
  (exists q, scrollPosition (tracker w) = Fin q) ->
  isScrolling (tracker w) = false ->
  isDragging (tracker w) = false ->
  finite_state (initialize w).
Proof.
  intros HP Hq Hs Hd. unfold initialize. apply setTheme_fin.
  fin_split; cbn; auto.
  - apply finite_of_N.
  - rewrite Hs. discriminate.
  - rewrite Hd. discriminate.
Qed.

(** A tracker built with a finite period other than zero has finite
    numbers, and keeps them whatever events it sees. *)
Lemma constructor_fin (o : Options) (width : N) (now P : Q) (w : World) :
  constructor o true width now = Some w ->
  scrollSpeed (merge o) = Fin P -> ~ P == 0 ->
  finite_state w.
Proof.
  unfold constructor. cbn [negb]. intros H HP HP0. injection H as <-.
  set (w0 := mkWorld _ _ _).
  assert (H0 : finite_state (initialize w0)).
  { apply initialize_fin; try reflexivity; [exists P | exists 0]; auto. }
  destruct (autoStart (config (tracker (initialize w0))));
    [now apply start_fin | exact H0].
Qed.

(** In the exact arithmetic of this model, on a tracker built with a
    finite scroll period other than zero, whatever events it has seen, a
    drag that is under way has a finite origin and the content width is
    finite and not negative. *)
Lemma built_drag_has_finite_origin
    (o : Options) (width : N) (now P : Q) (w0 : World) (trace : list (Q * Event)) :
  constructor o true width now = Some w0 ->
  scrollSpeed (merge o) = Fin P ->
  ~ P == 0 ->
  isDragging (tracker (run trace w0)) = true ->
  exists a b L, dragging_from (run trace w0) a b L /\ 0 <= L.
Proof.
  intros Hc HP HP0 Hd.
  destruct (run_fin trace w0 (constructor_fin _ _ _ _ _ Hc HP HP0))
    as (_ & _ & (L & HL & HL0) & _ & Hdrag).
  destruct (Hdrag Hd) as (a & b & Ha & Hb).
  exists a, b, L. split; [|exact HL0]. repeat split; assumption.
Qed.

(** C3 as stated fails: on a tracker built with a scroll period of zero
    the first frame, which [start] runs at once, leaves the position
    [NaN]; so does a period that is [NaN].  A press then takes [NaN] as the
    origin of the drag, and a move of that drag, while [isDragging] is
    true, leaves the position [NaN], which is no clamped value and lies in
    no interval. *)
Lemma zero_period_drag_gives_nan :
  (let w := run [(10, MouseDown 200)] (built (periodOptions (Fin 0)) 1000 0) in
   isDragging (tracker w) = true /\
   contentWidth (tracker w) = Fin 1000 /\
   startScrollPosition (tracker w) = NaN /\
   scrollPosition (tracker (step (20, MouseMove 150) w)) = NaN /\
   ~ within_closed (scrollPosition (tracker (step (20, MouseMove 150) w))) 0 1000) /\
  (let w := run [(10, TouchStart 200)] (built (periodOptions NaN) 1000 0) in
   isDragging (tracker w) = true /\
   contentWidth (tracker w) = Fin 1000 /\
   scrollPosition (tracker (step (20, TouchMove 150) w)) = NaN /\
   ~ within_closed (scrollPosition (tracker (step (20, TouchMove 150) w))) 0 1000).
Proof. vm_compute. repeat split; auto. Qed.

(** ** Frame requests *)

Lemma framed_fview (w w' : World) : fview w = fview w' -> framed w -> framed w'.
Proof.
  unfold fview, framed. intros H. injection H as H1 H2 H3.
  now rewrite H1, H2, H3.
Qed.

Lemma recordInteraction_fview (w : World) : fview (recordInteraction w) = fview w.
Proof.
  unfold recordInteraction, clearTimeout.
  destruct (idleTimeoutId (tracker w)); reflexivity.
Qed.

Lemma applyScrollPosition_fview (w : World) :
  fview (applyScrollPosition w) = fview w.
Proof.
  unfold fview. destruct (applyScrollPosition_rest w) as (-> & -> & _).
  reflexivity.
Qed.

Lemma setTheme_fview (n : string) (w : World) : fview (setTheme n w) = fview w.
Proof.
  unfold setTheme.
  destruct (themes (config (tracker w)) !! n); [|destruct (inheritedName n)];
    reflexivity.
Qed.

(** The callback of a running driver with no frame requested requests
    one. *)
Lemma animationLoop_framed (w : World) :
  isScrolling (tracker w) = true -> frames (browser w) = [] ->
  framed (animationLoop w).
Proof.
  intros Hs Hf. unfold framed. rewrite animationLoop_scrolling, Hs.
  unfold animationLoop, applyScrollPosition. rewrite Hs. cbn.
  split_ifs;
    cbn; rewrite Hf; eauto.
Qed.

Lemma start_framed (w : World) : framed w -> framed (start w).
Proof.
  intros H. unfold start.
  destruct (isScrolling (tracker w)) eqn:Hs; cbn [orb]; [exact H|].
  destruct (negb (truthy (contentWidth (tracker w)))); [exact H|].
  apply animationLoop_framed; [reflexivity|].
  unfold framed in H. now rewrite Hs in H.
Qed.

Lemma pause_framed (w : World) :
  framed w -> framed (pause w) /\ frames (browser (pause w)) = [].
Proof.
  unfold framed, pause. cbn.
  destruct (isScrolling (tracker w)).
  - intros (id & Hf & Hi). rewrite Hi. cbn. rewrite Hf. cbn.
    now rewrite Pos.eqb_refl.
  - intros Hf. destruct (animationFrameId (tracker w)); cbn; rewrite Hf; auto.
Qed.

Lemma runFrame_framed (w : World) : framed w -> framed (runFrame w).
Proof.
  unfold framed at 1, runFrame.
  destruct (isScrolling (tracker w)) eqn:Hs.
  - intros (id & -> & _). cbn [fold_left]. now apply animationLoop_framed.
  - intros ->. cbn [fold_left]. unfold framed. cbn. now rewrite Hs.
Qed.

Lemma idleExpired_framed (w : World) : framed w -> framed (idleExpired w).
Proof.
  intros H. unfold idleExpired.
  destruct (negb (isDragging (tracker w)) && negb (isHovered (tracker w)));
    [now apply start_framed | exact H].
Qed.

Lemma fire_framed (p : handle * Q) (w : World) : framed w -> framed (fire p w).
Proof.
  intros H. unfold fire. destruct (pending (fst p) w); [|exact H].
  apply idleExpired_framed. exact H.
Qed.

Lemma advance_framed (t : Q) (w : World) : framed w -> framed (advance t w).
Proof.
  unfold advance.
  generalize (sort_due (List.filter (fun p => Qle_bool (snd p) t) (timers (browser w)))).
  intros l. revert w. induction l as [|p l IH]; intros w H.
  - exact H.
  - cbn [fold_left]. apply IH. now apply fire_framed.
Qed.

Lemma record_framed (w : World) : framed w -> framed (recordInteraction w).
Proof.
  apply framed_fview. symmetry. apply recordInteraction_fview.
Qed.

Lemma dispatch_framed (e : Event) (w : World) : framed w -> framed (dispatch e w).
Proof.
  intros H. destruct e; cbn [dispatch].
  - apply pause_framed. exact H.
  - unfold handleMouseUp. apply record_framed.
    destruct (negb (isDragging (tracker (on_tracker (set_isHovered false) w))));
      [|exact H].
    apply (start_framed (on_tracker (set_isHovered false) w)) in H. exact H.
  - unfold handleMouseDown. apply record_framed, pause_framed. exact H.
  - apply record_framed. unfold handleMouseMove.
    destruct (negb (isDragging (tracker w))); [exact H|].
    apply record_framed. apply (framed_fview w); [|exact H].
    now rewrite applyScrollPosition_fview.
  - unfold handleMouseUp. apply record_framed. exact H.
  - unfold handleTouchStart. apply record_framed, pause_framed. exact H.
  - apply record_framed. unfold handleTouchMove.
    destruct (negb (isDragging (tracker w))); [exact H|].
    apply record_framed. apply (framed_fview w); [|exact H].
    now rewrite applyScrollPosition_fview.
  - unfold handleTouchEnd. apply record_framed. exact H.
  - unfold onResize. destruct (mounted (dom (set_layout width w))); exact H.
  - destruct (mounted (dom w)); [|exact H].
    apply (framed_fview w); [|exact H]. symmetry. apply setTheme_fview.
  - now apply runFrame_framed.
  - now apply start_framed.
  - apply pause_framed. exact H.
  - apply (framed_fview w); [|exact H]. symmetry. apply setTheme_fview.
  - unfold updateNews. cbn. destruct (mounted (dom w)); exact H.
  - unfold destroy. apply (pause_framed w) in H. exact (proj1 H).
Qed.

Lemma run_framed (trace : list (Q * Event)) (w : World) :
  framed w -> framed (run trace w).
Proof.
  revert w. induction trace as [|te trace IH]; intros w H; [exact H|].
  apply IH. unfold step. now apply dispatch_framed, advance_framed.
Qed.

Lemma constructor_framed (o : Options) (width : N) (now : Q) (w : World) :
  constructor o true width now = Some w -> framed w.
Proof.
  unfold constructor. cbn [negb]. intros H. injection H as <-.
  set (w0 := mkWorld _ _ _).
  assert (H0 : framed (initialize w0)).
  { unfold initialize. apply (framed_fview w0); [|reflexivity].
    now rewrite setTheme_fview. }
  destruct (autoStart (config (tracker (initialize w0))));
    [now apply start_framed | exact H0].
Qed.

(** X1.  On every tracker the constructor built, whatever events it has seen, a
    running driver has exactly one frame requested and a stopped driver has
    none: two drivers never run side by side. *)
Theorem one_frame_request_while_running (w : World) :
  reached w ->
  (length (frames (browser w)) <= 1)%nat /\
  (isScrolling (tracker w) = true ->
   exists id, frames (browser w) = [id] /\ animationFrameId (tracker w) = Some id) /\
  (isScrolling (tracker w) = false -> frames (browser w) = []).
Proof.
  intros (o & width & now & w0 & trace & Hc & ->).
  pose proof (run_framed trace w0 (constructor_framed _ _ _ _ Hc)) as H.
  unfold framed in H.
  destruct (isScrolling (tracker (run trace w0))).
  - destruct H as (id & Hf & Hi). rewrite Hf. cbn. split; [lia|].
    split; [eauto | discriminate].
  - rewrite H. cbn. split; [lia|]. split; [discriminate | reflexivity].
Qed.

Lemma one_frame_request_while_running_witness :
  let w := run [(10, MouseEnter); (20, MouseLeave); (30, CallStart)] demoWorld in
  (length (frames (browser w)) <= 1)%nat.
Proof.
  intros w.
  destruct (one_frame_request_while_running w) as (H & _).
  - exists noOptions, 1000%N, 0,  demoWorld,
      [(10, MouseEnter); (20, MouseLeave); (30, CallStart)].
    split; [vm_compute; reflexivity | reflexivity].
  - exact H.
Defined.

(** ** What the page shows *)




















(** ** Starting and stopping *)

Lemma start_running (w : World) : isScrolling (tracker w) = true -> start w = w.
Proof. intros H. unfold start. now rewrite H. Qed.

(** X3.  A second [start] changes nothing: it neither restarts the clock of the
    driver nor requests a second frame. *)
Theorem start_twice_is_start_once (w : World) : start (start w) = start w.
Proof.
  destruct (isScrolling (tracker w) || negb (truthy (contentWidth (tracker w))))
    eqn:E.
  - assert (H : start w = w) by (unfold start; now rewrite E).
    rewrite H. exact H.
  - apply start_running. unfold start. rewrite E.
    now rewrite animationLoop_scrolling.
Qed.

Lemma initialize_dom (w : World) :
  mounted (dom (initialize w)) = true /\
  offsetWidth (dom (initialize w)) = offsetWidth (dom w).
Proof.
  unfold initialize, setTheme. cbn.
  destruct (themes (config (tracker w)) !! "default"); cbn; auto.
Qed.

Lemma initialize_position (w : World) :
  scrollPosition (tracker (initialize w)) = scrollPosition (tracker w).
Proof.
  unfold initialize, setTheme. cbn.
  destruct (themes (config (tracker w)) !! "default"); reflexivity.
Qed.

(** X4.  Built on a content track that measures zero, the tracker is not
    scrolling whatever the options, with nothing scheduled; and a later
    resize that measures a width stores it but does not set the driver
    going. *)
Theorem empty_track_never_autostarts (o : Options) (now t : Q) (width : N) :
  exists w,
    constructor o true 0 now = Some w /\
    isScrolling (tracker w) = false /\
    frames (browser w) = [] /\
    timers (browser w) = [] /\
    scrollPosition (tracker w) = Fin 0 /\
    isScrolling (tracker (step (t, Resize width) w)) = false /\
    frames (browser (step (t, Resize width) w)) = [] /\
    contentWidth (tracker (step (t, Resize width) w)) = of_N width.
Proof.
  unfold constructor. cbn [negb]. set (w0 := mkWorld _ _ _).
  destruct (initialize_tracker w0) as (Hc & Hw & Hs).
  destruct (initialize_dom w0) as (Hm & _).
  assert (Hstart : start (initialize w0) = initialize w0).
  { apply start_not_ready. rewrite Hw. reflexivity. }
  exists (initialize w0). split.
  { destruct (autoStart (config (tracker (initialize w0)))); now rewrite ?Hstart. }
  pose proof (initialize_tview w0) as Hv. apply tview_inv in Hv.
  destruct Hv as (Ht & _).
  assert (Hf : fview (initialize w0) = fview w0).
  { unfold initialize. now rewrite setTheme_fview. }
  unfold fview in Hf. injection Hf as Hf1 Hf2 _.
  assert (Hp : scrollPosition (tracker (initialize w0)) = Fin 0)
    by apply (initialize_position w0).
  assert (A1 : isScrolling (tracker (initialize w0)) = false) by (now rewrite Hs).
  assert (A2 : frames (browser (initialize w0)) = []) by (now rewrite Hf1).
  unfold step; cbn [fst snd dispatch]. rewrite (advance_none _ _ Ht).
  unfold onResize; cbn; rewrite Hm; cbn. auto 10.
Qed.

(** ** Themes and content *)

Lemma style_item_twice (th th' : Theme) (i : Item) :
  style_item th (style_item th' i) = style_item th i.
Proof. reflexivity. Qed.





(** Once the container has been emptied, [updateNews] still stores the new
    articles in the configuration, then fails on the missing content
    element: no item is built and the width is not measured. *)
Lemma updateNews_after_destroy (w : World) (newData : list Article) (width : N) :
  let w' := dispatch (CallUpdateNews newData width) (destroy w) in
  throws (CallUpdateNews newData width) (destroy w) = true /\
  newsData (config (tracker w')) = newData /\
  contentItems (dom w') = [] /\
  contentWidth (tracker w') = contentWidth (tracker (destroy w)).
Proof. repeat split. Qed.

Lemma start_theme (w : World) :
  currentTheme (tracker (start w)) = currentTheme (tracker w) /\
  containerBackground (dom (start w)) = containerBackground (dom w) /\
  containerColor (dom (start w)) = containerColor (dom w) /\
  contentItems (dom (start w)) = contentItems (dom w).
Proof.
  unfold start.
  destruct (isScrolling (tracker w) || negb (truthy (contentWidth (tracker w))));
    [auto|].
  unfold animationLoop, applyScrollPosition. cbn.
  split_ifs; cbn; auto.
Qed.

(** X7.  The constructor sets the theme named default.  When the themes given
    in the options hold no theme of that name, construction still goes
    through: [currentTheme] reads default although the map has no such
    theme, the container has no colours and no item is styled. *)
Theorem constructor_without_default_theme
    (o : Options) (custom : gmap string Theme) (width : N) (now : Q) :
  opt_themes o = Some custom ->
  custom !! "default" = None ->
  exists w,
    constructor o true width now = Some w /\
    currentTheme (tracker w) = "default"%string /\
    themes (config (tracker w)) !! currentTheme (tracker w) = None /\
    containerBackground (dom w) = ""%string /\
    containerColor (dom w) = ""%string /\
    Forall (fun i => item_backgroundColor i = ""%string /\ item_border i = ""%string)
      (contentItems (dom w)).
Proof.
  intros Ho Hd. unfold constructor. cbn [negb]. set (w0 := mkWorld _ _ _).
  assert (Hi : initialize w0 =
               generateNewsItems
                 (mkWorld (tracker w0)
                    (mkDom true "" "" [] [] None None width) (browser w0))).
  { unfold initialize, setTheme. cbn. rewrite Ho. cbn. now rewrite Hd. }
  eexists. split; [reflexivity|].
  assert (Hc : config (tracker (initialize w0)) = merge o) by (now rewrite Hi).
  assert (G : currentTheme (tracker (initialize w0)) = "default"%string /\
              themes (config (tracker (initialize w0))) !! "default" = None /\
              containerBackground (dom (initialize w0)) = ""%string /\
              containerColor (dom (initialize w0)) = ""%string /\
              Forall (fun i => item_backgroundColor i = ""%string /\
                               item_border i = ""%string)
                (contentItems (dom (initialize w0)))).
  { rewrite Hi. cbn. rewrite Ho. cbn. repeat split; try assumption.
    apply Forall_map, Forall_forall. now intros. }
  destruct G as (G1 & G2 & G3 & G4 & G5).
  destruct (autoStart (config (tracker (initialize w0)))).
  - destruct (start_theme (initialize w0)) as (S1 & S2 & S3 & S4).
    rewrite start_config, S1, S2, S3, S4, G1. auto 10.
  - rewrite G1. auto 10.
Qed.

Lemma constructor_without_default_theme_witness :
  exists w,
    constructor (mkOptions None (Some (<["night" := mkTheme "#000" "#eee" "#111" "#222"]> ∅))
                   None None None) true 1000 0 = Some w /\
    currentTheme (tracker w) = "default"%string /\
    containerBackground (dom w) = ""%string.
Proof.
  destruct (constructor_without_default_theme
              (mkOptions None (Some (<["night" := mkTheme "#000" "#eee" "#111" "#222"]> ∅))
                 None None None)
              (<["night" := mkTheme "#000" "#eee" "#111" "#222"]> ∅) 1000 0)
    as (w & H1 & H2 & _ & H4 & _).
  - reflexivity.
  - vm_compute. reflexivity.
  - exists w. auto.
Defined.

(** ** Pausing, holding and resuming *)

Lemma start_clock (w : World) : clock (browser (start w)) = clock (browser w).
Proof. exact (f_equal (fun v => snd (fst (fst (fst v)))) (start_tview w)). Qed.

(** [start] on a stopped driver with finite data, a width other than zero
    and nothing scheduled: the driver runs from where it stood. *)
Lemma start_driving (w : World) (W P q pos : Q) :
  isScrolling (tracker w) = false ->
  contentWidth (tracker w) = Fin W -> ~ W == 0 ->
  scrollSpeed (config (tracker w)) = Fin P -> ~ P == 0 ->
  scrollPosition (tracker w) = Fin q -> q == pos -> pos < W ->
  frames (browser w) = [] -> timers (browser w) = [] ->
  driving (start w) W P pos.
Proof.
  intros Hs HW HW0 HP HP0 Hq Hqp Hlt Hf Ht.
  unfold start. rewrite Hs, HW. unfold truthy, Qzero_b.
  rewrite Qeq_bool_false by assumption. cbn [orb negb].
  set (X := on_tracker _ _).
  destruct (animationLoop_finite X W P q (clock (browser w)))
    as (A1 & A2 & A3 & A4 & A5 & A6 & A7 & A8 & A9 & A10); try assumption;
    try reflexivity.
  assert (E : wrap W (q + (clock (browser X) - clock (browser w)) / 1000 * (W / 2 / P))
              == pos).
  { change (clock (browser X)) with (clock (browser w)).
    rewrite wrap_below.
    - rewrite <- Hqp. field. assumption.
    - apply (Qle_lt_trans _ pos); [|assumption].
      rewrite <- Hqp. apply Qle_lteq. right. field. assumption. }
  constructor; try assumption.
  - now rewrite A7.
  - now rewrite A4, A10.
  - exists (nextFrame (browser w)). rewrite A8. cbn. now rewrite Hf.
  - rewrite A9. exact Ht.
  - eexists. split; [exact A1 | exact E].
  - eexists. split; [exact A2|]. split; [exact A3|]. now rewrite E.
Qed.

(** X8.  The time a driver spends paused is not scrolled, when no idle
    timeout is pending that would start it again meanwhile.  A driver that
    runs on finite data, with a positive period, a width other than zero,
    its one frame requested and no timeout pending, is paused at [t0],
    started again at [t1] and has its frame at [t2]: as long as that frame
    does not reach the width, it moves the position on by the time since
    [t1] only. *)
Theorem paused_time_is_not_scrolled (w : World) (W P pos t0 t1 t2 : Q) :
  driving w W P pos -> framed w ->
  0 < P -> ~ W == 0 -> pos < W ->
  clock (browser w) <= t0 -> t0 <= t1 -> t1 <= t2 ->
  pos + (t2 - t1) / 1000 * (W / 2 / P) < W ->
  let w' := run [(t0, CallPause); (t1, CallStart); (t2, AnimationFrame)] w in
  exists q,
    scrollPosition (tracker w') = Fin q /\
    q == pos + (t2 - t1) / 1000 * (W / 2 / P).
Proof.
  intros Hd Hfr HP HW Hlt H0 H1 H2 Hend w'. subst w'.
  pose proof Hd as [D1 D2 D3 D4 (id & D5) D6 (q & Dq & Dq') _].
  change (run [(t0, CallPause); (t1, CallStart); (t2, AnimationFrame)] w)
    with (step (t2, AnimationFrame) (step (t1, CallStart) (step (t0, CallPause) w))).
  (* the pause *)
  set (w1 := step (t0, CallPause) w).
  assert (E1 : w1 = pause (tick t0 w))
    by (unfold w1, step; cbn [fst snd dispatch]; now rewrite advance_none).
  assert (P1 : frames (browser w1) = []).
  { rewrite E1. apply pause_framed. exact Hfr. }
  assert (P2 : isScrolling (tracker w1) = false /\ timers (browser w1) = [] /\
               clock (browser w1) = t0 /\ contentWidth (tracker w1) = Fin W /\
               scrollSpeed (config (tracker w1)) = Fin P /\
               scrollPosition (tracker w1) = Fin q).
  { rewrite E1. unfold pause. cbn.
    destruct (animationFrameId (tracker w)); cbn; rewrite later_le by assumption;
      auto 10. }
  destruct P2 as (P2 & P3 & P4 & P5 & P6 & P7).
  (* the start *)
  set (w2 := step (t1, CallStart) w1).
  assert (E2 : w2 = start (tick t1 w1))
    by (unfold w2, step; cbn [fst snd dispatch]; now rewrite advance_none).
  assert (Hd2 : driving w2 W P pos).
  { rewrite E2. apply (start_driving _ W P q pos); try assumption. lra. }
  assert (Hc2 : clock (browser w2) = t1).
  { rewrite E2, start_clock. unfold tick. cbn [clock browser].
    rewrite P4. now apply later_le. }
  (* the frame *)
  destruct (step_frame w2 W P pos t2 Hd2 HP) as ([_ _ _ _ _ _ Hq _] & _).
  - now rewrite Hc2.
  - now rewrite Hc2.
  - rewrite Hc2 in Hq. exact Hq.
Qed.

Lemma paused_time_is_not_scrolled_witness :
  exists q,
    scrollPosition (tracker
      (run [(100, CallPause); (60000, CallStart); (61000, AnimationFrame)] demoWorld)) =
      Fin q /\
    q == 0 + (61000 - 60000) / 1000 * (1000 / 2 / 100).
Proof.
  destruct (paused_time_is_not_scrolled demoWorld 1000 100 0 100 60000 61000)
    as (q & H1 & H2).
  - exact demoWorld_driving.
  - vm_compute. exists 1%positive. split; reflexivity.
  - lra.
  - lra.
  - lra.
  - vm_compute. discriminate.
  - lra.
  - lra.
  - vm_compute. reflexivity.
  - exists q. split; [exact H1 | exact H2].
Defined.



Lemma run_app (l1 l2 : list (Q * Event)) (w : World) :
  run (l1 ++ l2) w = run l2 (run l1 w).
Proof. unfold run. apply fold_left_app. Qed.

Lemma run_moves_keep_drag (moves : list (Q * Event)) (w : World) (a b L : Q) :
  0 <= L -> Forall (fun te => is_move (snd te) = true) moves ->
  dragging_from w a b L -> dragging_from (run moves w) a b L.
Proof.
  intros Hpos. revert w.
  induction moves as [|[t e] l IH]; intros w Hm Hw; [exact Hw|].
  apply Forall_cons in Hm as [He Hl]. cbn [snd] in He.
  change (run ((t, e) :: l) w) with (run l (step (t, e) w)).
  apply IH; [assumption|].
  now destruct (step_move_dragging t e w a b L Hpos He Hw).
Qed.

(** X10.  During a drag with a finite origin, on a content width that is
    finite and not negative, the position follows the pointer, not the path
    it took: after any moves, a move to [x] leaves the position at the
    origin less the displacement of [x] from where the drag began, clamped
    to [0, width].  So when the position the drag began with lies within
    [0, width], bringing the pointer back to where it began restores it. *)
Theorem drag_follows_last_move
    (w : World) (a b L t x : Q) (e : Event) (moves : list (Q * Event)) :
  dragging_from w a b L ->
  0 <= L ->
  Forall (fun te => is_move (snd te) = true) moves ->
  e = MouseMove x \/ e = TouchMove x ->
  exists q,
    scrollPosition (tracker (run (moves ++ [(t, e)]) w)) = Fin q /\
    q == clamp (b - (x - a)) 0 L /\
    (x == a -> 0 <= b -> b <= L -> q == b).
Proof.
  intros Hw Hpos Hm He. rewrite run_app.
  pose proof (run_moves_keep_drag moves w a b L Hpos Hm Hw) as Hv.
  set (v := run moves w) in *.
  change (run [(t, e)] v) with (step (t, e) v).
  unfold step; cbn [fst snd].
  assert (Ha : dragging_from (advance t v) a b L).
  { unfold dragging_from in *. now rewrite advance_dragging. }
  assert (Hx : exists h, (h = handleMouseMove \/ h = handleTouchMove) /\
                 dispatch e (advance t v) = recordInteraction (h x (advance t v))).
  { destruct He as [-> | ->]; cbn [dispatch]; eauto. }
  destruct Hx as (h & Hh & ->).
  destruct (handle_move_dragging h x a b L _ Hh Ha) as (M1 & _).
  destruct (dragged_position x a b L Hpos) as (q & Hq & Hq' & _).
  exists q. split.
  { rewrite recordInteraction_tracker. cbn [scrollPosition set_idleTimeoutId].
    now rewrite M1. }
  split; [exact Hq'|].
  intros Hx H0 H1. rewrite Hq'. unfold clamp.
  destruct (Qle_bool (b - (x - a)) 0) eqn:E1.
  - apply Qle_bool_true in E1. lra.
  - destruct (Qle_bool L (b - (x - a))) eqn:E2.
    + apply Qle_bool_true in E2. lra.
    + lra.
Qed.

Lemma drag_follows_last_move_witness :
  let w := run [(10, MouseDown 100); (20, MouseMove 50); (30, MouseUp);
                (40, MouseDown 200)] demoWorld in
  exists q,
    scrollPosition
      (tracker (run ([(50, MouseMove 900); (60, TouchMove (-4000))] ++ [(70, MouseMove 200)]) w)) =
      Fin q /\
    q == 10000000 # 200000.
Proof.
  intros w.
  destruct (drag_follows_last_move w 200 (10000000 # 200000) 1000 70 200
              (MouseMove 200) [(50, MouseMove 900); (60, TouchMove (-4000))])
    as (q & H1 & _ & H3).
  - vm_compute. repeat split.
  - vm_compute. discriminate.
  - repeat constructor.
  - now left.
  - exists q. split; [exact H1|]. apply H3.
    + reflexivity.
    + vm_compute. discriminate.
    + vm_compute. discriminate.
Defined.

Lemma record_frames (w : World) :
  frames (browser (recordInteraction w)) = frames (browser w).
Proof. exact (f_equal (fun v => fst (fst v)) (recordInteraction_fview w)). Qed.

Lemma idleExpired_held (w : World) :
  isDragging (tracker w) || isHovered (tracker w) = true -> idleExpired w = w.
Proof.
  intros H. unfold idleExpired.
  destruct (isDragging (tracker w)), (isHovered (tracker w));
    try discriminate; reflexivity.
Qed.

Lemma fire_held (p : handle * Q) (w : World) :
  isDragging (tracker w) || isHovered (tracker w) = true ->
  tracker (fire p w) = tracker w /\ dom (fire p w) = dom w /\
  frames (browser (fire p w)) = frames (browser w).
Proof.
  intros H. unfold fire. destruct (pending (fst p) w); [|auto].
  rewrite idleExpired_held by exact H. auto.
Qed.

Lemma advance_held (t : Q) (w : World) :
  isDragging (tracker w) || isHovered (tracker w) = true ->
  tracker (advance t w) = tracker w /\ dom (advance t w) = dom w /\
  frames (browser (advance t w)) = frames (browser w).
Proof.
  unfold advance.
  generalize (sort_due (List.filter (fun p => Qle_bool (snd p) t) (timers (browser w)))).
  intros l. revert w. induction l as [|p l IH]; intros w H; [auto|].
  cbn [fold_left].
  destruct (fire_held p w H) as (F1 & F2 & F3).
  destruct (IH (fire p w)) as (I1 & I2 & I3); [now rewrite F1|].
  change (tracker (tick t ?x)) with (tracker x) in *.
  change (dom (tick t ?x)) with (dom x) in *.
  change (frames (browser (tick t ?x))) with (frames (browser x)) in *.
  rewrite I1, I2, I3. auto.
Qed.

Lemma frames_while_held (times : list Q) (w : World) :
  isDragging (tracker w) || isHovered (tracker w) = true ->
  frames (browser w) = [] ->
  tracker (run (frames_at times) w) = tracker w /\
  dom (run (frames_at times) w) = dom w.
Proof.
  revert w. induction times as [|t rest IH]; intros w H Hf; [auto|].
  change (run (frames_at (t :: rest)) w)
    with (run (frames_at rest) (step (t, AnimationFrame) w)).
  destruct (advance_held t w H) as (A1 & A2 & A3).
  assert (S : tracker (step (t, AnimationFrame) w) = tracker w /\
              dom (step (t, AnimationFrame) w) = dom w /\
              frames (browser (step (t, AnimationFrame) w)) = []).
  { unfold step; cbn [fst snd dispatch]. unfold runFrame.
    rewrite A3, Hf. cbn [fold_left]. cbn. auto. }
  destruct S as (S1 & S2 & S3).
  destruct (IH (step (t, AnimationFrame) w)) as (I1 & I2);
    [now rewrite S1 | exact S3 |].
  rewrite I1, I2. auto.
Qed.

(** X11.  While the pointer presses or hovers, the track stands still: the press
    and the entering of the pointer stop the driver and withdraw its frame
    request, so no animation frame and no expiry of the idle timeout in
    between changes the tracker or the page. *)
Theorem held_track_stands_still (w : World) (e : Event) (times : list Q) :
  framed w ->
  is_press e = true \/ e = MouseEnter ->
  let w1 := dispatch e w in
  isScrolling (tracker w1) = false /\
  frames (browser w1) = [] /\
  tracker (run (frames_at times) w1) = tracker w1 /\
  dom (run (frames_at times) w1) = dom w1.
Proof.
  intros Hf He w1.
  assert (H : isScrolling (tracker w1) = false /\ frames (browser w1) = [] /\
              isDragging (tracker w1) || isHovered (tracker w1) = true).
  { subst w1. destruct He as [He | ->].
    - assert (E : exists x,
                dispatch e w =
                recordInteraction
                  (pause
                     (on_tracker (fun t => set_startScrollPosition (scrollPosition t) t)
                        (on_tracker (set_startX (Fin x))
                           (on_tracker (set_isDragging true) w)))))
        by (destruct e; try discriminate; eexists; reflexivity).
      destruct E as (x & ->). set (v := on_tracker _ _).
      assert (Hv : framed v) by exact Hf.
      destruct (pause_framed v Hv) as (_ & P2).
      destruct (pause_stops v) as (P3 & _).
      rewrite recordInteraction_tracker, record_frames, P2.
      cbn [isScrolling isDragging set_idleTimeoutId]. rewrite P3.
      split; [reflexivity|]. split; [reflexivity|].
      unfold pause. cbn. destruct (animationFrameId (tracker w)); reflexivity.
    - cbn [dispatch]. set (v := on_tracker _ _).
      assert (Hv : framed v) by exact Hf.
      destruct (pause_framed v Hv) as (_ & P2).
      destruct (pause_stops v) as (P3 & _).
      split; [exact P3|]. split; [exact P2|].
      unfold pause. cbn. destruct (animationFrameId (tracker w)); cbn;
        apply orb_true_r. }
  destruct H as (H1 & H2 & H3).
  split; [exact H1|]. split; [exact H2|].
  now apply frames_while_held.
Qed.

Lemma held_track_stands_still_witness :
  tracker (run (frames_at [100; 200; 90000]) (dispatch (TouchStart 30) demoWorld)) =
    tracker (dispatch (TouchStart 30) demoWorld).
Proof.
  destruct (held_track_stands_still demoWorld (TouchStart 30) [100; 200; 90000])
    as (_ & _ & H & _).
  - vm_compute. exists 1%positive. split; reflexivity.
  - left. reflexivity.
  - exact H.
Defined.

(** X12.  When the pointer leaves the ticker and no drag is under way, the driver
    of a tracker with a content width is running at once.  When it leaves
    in the middle of a drag, the drag ends there, but the driver stays
    stopped: the first listener sees the drag still on. *)
Theorem leave_resumes_unless_dragging (w v : World) :
  truthy (contentWidth (tracker w)) = true ->
  isDragging (tracker w) = false ->
  isDragging (tracker v) = true ->
  isScrolling (tracker v) = false ->
  isScrolling (tracker (dispatch MouseLeave w)) = true /\
  isHovered (tracker (dispatch MouseLeave w)) = false /\
  isScrolling (tracker (dispatch MouseLeave v)) = false /\
  isDragging (tracker (dispatch MouseLeave v)) = false /\
  isHovered (tracker (dispatch MouseLeave v)) = false.
Proof.
  intros Hw Hd Hv Hs. cbn [dispatch]. unfold handleMouseUp.
  rewrite !recordInteraction_tracker.
  cbn [tracker on_tracker isDragging set_isHovered].
  rewrite Hd, Hv. cbn [negb].
  set (x := on_tracker (set_isHovered false) w).
  assert (S : isScrolling (tracker (start x)) = true) by (now apply start_scrolling).
  assert (Hh : isHovered (tracker (start x)) = false).
  { unfold start.
    destruct (isScrolling (tracker x) || negb (truthy (contentWidth (tracker x))));
      [reflexivity|].
    unfold animationLoop, applyScrollPosition. cbn.
    split_ifs; reflexivity. }
  cbn. rewrite S, Hh, Hs. auto.
Qed.

Lemma leave_resumes_unless_dragging_witness :
  isScrolling (tracker (dispatch MouseLeave (dispatch MouseEnter demoWorld))) = true /\
  isScrolling (tracker (dispatch MouseLeave (dispatch (MouseDown 5) demoWorld))) = false.
Proof.
  destruct (leave_resumes_unless_dragging (dispatch MouseEnter demoWorld)
              (dispatch (MouseDown 5) demoWorld))
    as (H1 & _ & H3 & _).
  - vm_compute. reflexivity.
  - vm_compute. reflexivity.
  - vm_compute. reflexivity.
  - vm_compute. reflexivity.
  - split; [exact H1 | exact H3].
Defined.

(** ** The earlier variant *)

Lemma legacy_in_range (n : nat) (x : N) :
  (x < N.of_nat n)%N -> In x (map N.of_nat (seq 0 n)).
Proof.
  intros H. apply in_map_iff. exists (N.to_nat x). split.
  - apply N2Nat.id.
  - apply in_seq. lia.
Qed.

Lemma legacy_stamps_checked : Legacy.stamps_ok = true.
Proof. vm_compute. reflexivity. Qed.

Lemma legacy_in_table (h m : N) :
  (h < 24)%N -> (m < 60)%N ->
  In (h, m, Legacy.getTimeStamp h m) Legacy.stampTable.
Proof.
  intros Hh Hm. unfold Legacy.stampTable. apply in_flat_map.
  exists h. split; [now apply (legacy_in_range 24)|].
  apply in_map_iff. exists m. split; [reflexivity|].
  now apply (legacy_in_range 60).
Qed.

(** X14.  The time stamp of the earlier variant reads hours, a colon, and the
    minutes on two digits; the hours are not padded.  Within a day, two
    times with the same stamp are the same time. *)
Theorem legacy_timestamp_format (h m h' m' : N) :
  (h < 24)%N -> (m < 60)%N -> (h' < 24)%N -> (m' < 60)%N ->
  String.length (Legacy.padStart 2 "0"%char (pretty m)) = 2%nat /\
  String.length (Legacy.getTimeStamp h m) = (if (h <? 10)%N then 4 else 5)%nat /\
  (Legacy.getTimeStamp h m = Legacy.getTimeStamp h' m' -> h = h' /\ m = m').
Proof.
  intros Hh Hm Hh' Hm'.
  pose proof legacy_stamps_checked as C. unfold Legacy.stamps_ok in C.
  cbv zeta in C. rewrite forallb_forall in C.
  specialize (C _ (legacy_in_table h m Hh Hm)).
  unfold Legacy.stamp_ok in C. cbn [fst snd] in C.
  apply andb_prop in C as [C C3]. apply andb_prop in C as [C1 C2].
  apply Nat.eqb_eq in C1. apply Nat.eqb_eq in C2.
  split; [exact C1|]. split; [exact C2|].
  intros E.
  rewrite forallb_forall in C3.
  specialize (C3 _ (legacy_in_table h' m' Hh' Hm')). cbn [fst snd] in C3.
  rewrite E, String.eqb_refl in C3. cbn [implb] in C3.
  apply andb_prop in C3 as [E1 E2].
  apply N.eqb_eq in E1. apply N.eqb_eq in E2. auto.
Qed.

Lemma legacy_timestamp_format_witness :
  String.length (Legacy.getTimeStamp 9 5) = 4%nat /\
  Legacy.getTimeStamp 9 5 = "9:05"%string.
Proof.
  destruct (legacy_timestamp_format 9 5 9 5) as (_ & H & _); try reflexivity.
  split; [exact H | reflexivity].
Defined.

Lemma legacy_updateNews_appends (w : Legacy.World) (d : list Article) (h m : N) :
  Legacy.mounted w = true ->
  let w' := Legacy.updateNews d h m w in
  Legacy.mounted w' = true /\
  Legacy.clones w' = Legacy.clones w ++ [Legacy.content w'] /\
  map Legacy.item_article (Legacy.items (Legacy.content w')) = d.
Proof.
  intros H. unfold Legacy.updateNews, Legacy.generateNewsItems. cbn.
  rewrite H. cbn. repeat split. rewrite map_map. apply map_id.
Qed.

Lemma legacy_updates_append (calls : list (list Article * N * N)) (w : Legacy.World) :
  Legacy.mounted w = true ->
  exists added,
    Legacy.clones (Legacy.updates calls w) = Legacy.clones w ++ added /\
    length added = length calls /\
    Legacy.mounted (Legacy.updates calls w) = true.
Proof.
  revert w. induction calls as [|[[d h] m] calls IH]; intros w H.
  - exists []. cbn. now rewrite app_nil_r.
  - destruct (legacy_updateNews_appends w d h m H) as (H1 & H2 & _).
    destruct (IH _ H1) as (added & A1 & A2 & A3).
    exists (Legacy.content (Legacy.updateNews d h m w) :: added).
    change (Legacy.updates ((d, h, m) :: calls) w)
      with (Legacy.updates calls (Legacy.updateNews d h m w)).
    rewrite A1, H2, <- app_assoc. cbn. auto.
Qed.

Lemma legacy_setTheme_keeps (n : string) (w : Legacy.World) :
  Legacy.mounted (Legacy.setTheme n w) = Legacy.mounted w /\
  Legacy.config (Legacy.setTheme n w) = Legacy.config w /\
  forall first,
    Legacy.clones w = [first] ->
    exists first',
      Legacy.clones (Legacy.setTheme n w) = [first'] /\
      map Legacy.item_article (Legacy.items first') =
        map Legacy.item_article (Legacy.items first).
Proof.
  unfold Legacy.setTheme.
  destruct (Legacy.themes (Legacy.config w) !! n);
    [|destruct (inheritedName n)]; cbn;
    (split; [reflexivity|]); (split; [reflexivity|]); intros first Hf.
  - rewrite Hf. cbn. eexists. split; [reflexivity|]. cbn.
    now rewrite map_map.
  - eauto.
  - eauto.
Qed.

Lemma legacy_constructed (o : Legacy.Options) (h m : N) (w : Legacy.World) :
  Legacy.constructor o true h m = Some w ->
  Legacy.mounted w = true /\
  exists first,
    Legacy.clones w = [first] /\
    map Legacy.item_article (Legacy.items first) = Legacy.newsData (Legacy.merge o).
Proof.
  unfold Legacy.constructor. cbn [negb]. intros H. injection H as <-.
  set (w0 := Legacy.mkWorld _ _ _ _ _ _ _ _ _).
  set (w1 := Legacy.generateNewsItems h m w0).
  destruct (legacy_setTheme_keeps "default" w1) as (K1 & _ & K3).
  destruct (K3 (Legacy.content w1) eq_refl) as (first & F1 & F2).
  assert (G : Legacy.mounted (Legacy.setTheme "default" w1) = true /\
              exists first,
                Legacy.clones (Legacy.setTheme "default" w1) = [first] /\
                map Legacy.item_article (Legacy.items first) =
                  Legacy.newsData (Legacy.merge o)).
  { split; [now rewrite K1|]. exists first. split; [exact F1|].
    rewrite F2. cbn. rewrite map_map. apply map_id. }
  destruct (Legacy.autoStart _); exact G.
Qed.

(** X15.  In the earlier variant every [updateNews] appends one more copy of the
    content to the page and removes none: after the constructor and [n]
    updates the wrapper holds [n + 1] copies besides the content, and the
    first of them still shows the articles the tracker was built with. *)
Theorem legacy_updateNews_piles_up_clones
    (o : Legacy.Options) (h m : N) (w : Legacy.World)
    (calls : list (list Article * N * N)) :
  Legacy.constructor o true h m = Some w ->
  exists first rest,
    Legacy.clones (Legacy.updates calls w) = first :: rest /\
    length rest = length calls /\
    map Legacy.item_article (Legacy.items first) = Legacy.newsData (Legacy.merge o).
Proof.
  intros Hc.
  destruct (legacy_constructed o h m w Hc) as (Hm & first & Hf & Ha).
  destruct (legacy_updates_append calls w Hm) as (added & A1 & A2 & _).
  exists first, added. rewrite A1, Hf. auto.
Qed.

Lemma legacy_updateNews_piles_up_clones_witness :
  exists w first rest,
    Legacy.constructor (Legacy.mkOptions None None None None) true 9 5 = Some w /\
    Legacy.clones
      (Legacy.updates [([mkArticle "Tech" "Chip" "/chip"], 9, 6)%N; ([], 9, 7)%N] w) =
      first :: rest /\
    length rest = 2%nat.
Proof.
  eexists.
  destruct (legacy_updateNews_piles_up_clones
              (Legacy.mkOptions None None None None) 9 5 _
              [([mkArticle "Tech" "Chip" "/chip"], 9, 6)%N; ([], 9, 7)%N] eq_refl)
    as (first & rest & H1 & H2 & _).
  exists first, rest. split; [reflexivity|]. split; [exact H1 | exact H2].
Defined.

(** In the version the claims are about, [updateNews] keeps two tracks:
    whatever the number of updates, the page holds the content and one
    copy, with the same items. *)
Lemma updateNews_keeps_two_tracks (w : World) (d : list Article) (width : N) :
  mounted (dom w) = true ->
  cloneItems (dom (updateNews d (set_layout width w))) =
    contentItems (dom (updateNews d (set_layout width w))).
Proof. intros H. unfold updateNews. cbn. now rewrite H. Qed.

